(** * Event hub proxy (frontend/server.js): normalisation contract

    A shallow embedding of [server.js]: the JavaScript values the proxy
    handles, the operators it applies to them ([||], [&&], [?.], [===],
    template literals, [toString], [slice], [toISOString]), the function
    [normalizeEvent], the three per-source mappings and the three request
    handlers, followed by the properties of the normalisation contract. *)

From Stdlib Require Import List String Ascii ZArith Bool Lia.
From Stdlib Require Import DecimalString.
From Stdlib Require Import Floats.SpecFloat.
Import ListNotations.
Open Scope string_scope.
#[local] Set Warnings "-register-all".

(* ===================================================================== *)
(** ** JavaScript values *)
(* ===================================================================== *)

Module JS.

(** The values that reach the proxy: what [JSON.parse] yields (the two
    upstream APIs), what the query-string parser yields, and what the
    calendar parser yields (the same, plus [Date] objects).  A string is a
    sequence of code units, here the code units below 256.  A [Date] holds
    its time value in milliseconds, [None] being the invalid date.  An
    object is its own enumerable data properties, in enumeration order. *)
Inductive value : Type :=
| VUndefined
| VNull
| VBool (b : bool)
| VNum (n : spec_float)
| VStr (s : string)
| VDate (t : option Z)
| VArr (elems : list value)
| VObj (props : list (string * value)).

(** Why the engine itself throws in this program.  [callee] is the source
    text of the called expression, which the engine may quote. *)
Inductive fault : Type :=
| ReadOfNullish (base : value) (k : string)
| NotAFunction (callee : string)
| NoPrimitive
| NoObject
| NoDestructure (base : value)
| InvalidTime.

(** What a running script can throw at the handlers: an error of the
    engine, or the rejection of an awaited outbound operation, of which
    [message] is what [err.message] reads. *)
Inductive exn : Type :=
| TypeError (why : fault)
| RangeError (why : fault)
| Rejection (message : value).

(** Completion of an expression: a value or an abrupt completion. *)
Inductive result (A : Type) : Type :=
| Ok (a : A)
| Throw (e : exn).
Arguments Ok {A} a.
Arguments Throw {A} e.

Definition bind {A B} (r : result A) (k : A -> result B) : result B :=
  match r with
  | Ok a => k a
  | Throw e => Throw e
  end.

Declare Scope js_scope.
Delimit Scope js_scope with js.
Notation "x <- r ;; k" := (bind r (fun x => k))
  (at level 61, r at next level, right associativity) : js_scope.

(** [arr.map(f)] over an array without holes: the callback runs on the
    elements in order and the first throw ends the whole call. *)
Fixpoint mapM {A B} (f : A -> result B) (l : list A) : result (list B) :=
  match l with
  | [] => Ok []
  | a :: l' =>
      match f a with
      | Throw e => Throw e
      | Ok b =>
          match mapM f l' with
          | Throw e => Throw e
          | Ok bs => Ok (b :: bs)
          end
      end
  end.

(** The parts of the engine the proxy calls and this file leaves open:
    the decimal form of a number, the two renderings of a date, and the
    text of the message of an error the engine throws. *)
Class Engine : Type := {
  number_to_string : spec_float -> string;
  date_to_string : option Z -> string;
  date_toISOString : Z -> string;
  fault_message : fault -> string
}.

(** ToBoolean. *)
Definition truthy (v : value) : bool :=
  match v with
  | VUndefined | VNull => false
  | VBool b => b
  | VNum (S754_zero _) | VNum S754_nan => false
  | VNum _ => true
  | VStr EmptyString => false
  | VStr _ => true
  | VDate _ | VArr _ | VObj _ => true
  end.

(** [a || b] and [a && b] where evaluating [b] has no effect. *)
Definition or (a b : value) : value := if truthy a then a else b.
Definition and (a b : value) : value := if truthy a then b else a.

(** [v === 'lit'] against a string literal. *)
Definition strict_eq_str (v : value) (lit : string) : bool :=
  match v with
  | VStr s => String.eqb s lit
  | _ => false
  end.

Definition nullish (v : value) : bool :=
  match v with
  | VUndefined | VNull => true
  | _ => false
  end.

Fixpoint assoc (k : string) (props : list (string * value)) : value :=
  match props with
  | [] => VUndefined
  | (k', v) :: rest => if String.eqb k k' then v else assoc k rest
  end.

(** The key of the [i]-th element of an array, or code unit of a string. *)
Definition index_key (i : nat) : string :=
  NilEmpty.string_of_uint (Nat.to_uint i).

Fixpoint units (s : string) : list value :=
  match s with
  | EmptyString => []
  | String c rest => VStr (String c "") :: units rest
  end.

Definition indexed (elems : list value) : list (string * value) :=
  combine (map index_key (seq 0 (List.length elems))) elems.

(** The own enumerable data properties of a value that is not nullish, in
    enumeration order: the properties of an object, the elements of an
    array and the code units of a string under their indices. *)
Definition own_props (v : value) : list (string * value) :=
  match v with
  | VObj props => props
  | VArr elems => indexed elems
  | VStr s => indexed (units s)
  | _ => []
  end.

(** Reading a property of a value that is not nullish.  The names this
    program reads are names of data: none of them is inherited, and a name
    the value does not own reads as [undefined]. *)
Definition get (v : value) (k : string) : value := assoc k (own_props v).

(** [v.k] *)
Definition member (v : value) (k : string) : result value :=
  if nullish v then Throw (TypeError (ReadOfNullish v k)) else Ok (get v k).

(** [v?.k] *)
Definition opt_member (v : value) (k : string) : value :=
  if nullish v then VUndefined else get v k.

(** [Object.keys(v)] *)
Definition keys (v : value) : result (list string) :=
  if nullish v then Throw (TypeError NoObject)
  else Ok (map fst (own_props v)).

(** The results of a list of conversions made in order: the first throw
    ends them. *)
Fixpoint sequence {A} (l : list (result A)) : result (list A) :=
  match l with
  | [] => Ok []
  | r :: rest =>
      match r with
      | Throw e => Throw e
      | Ok a =>
          match sequence rest with
          | Throw e => Throw e
          | Ok l' => Ok (a :: l')
          end
      end
  end.

(** Whether an object has a property of its own under the name [k].  Such
    a property holds data, so it hides the method of that name. *)
Definition owns (props : list (string * value)) (k : string) : bool :=
  existsb (String.eqb k) (map fst props).

Section WithEngine.
Context {engine : Engine}.

(** [err.message] *)
Definition err_message (e : exn) : value :=
  match e with
  | TypeError w | RangeError w => VStr (fault_message w)
  | Rejection m => m
  end.

(** ToString, as a template literal and [encodeURIComponent] apply it.  An
    array is joined with commas, its [undefined] and [null] elements
    giving nothing; an object gives "[object Object]" unless a property of
    its own hides [toString], in which case nothing is left to call that
    returns a primitive. *)
Fixpoint to_string (v : value) : result string :=
  match v with
  | VUndefined => Ok "undefined"
  | VNull => Ok "null"
  | VBool true => Ok "true"
  | VBool false => Ok "false"
  | VNum n => Ok (number_to_string n)
  | VStr s => Ok s
  | VDate t => Ok (date_to_string t)
  | VArr elems =>
      match sequence
              (map (fun x => match x with
                             | VUndefined | VNull => Ok ""
                             | _ => to_string x
                             end) elems) with
      | Ok parts => Ok (String.concat "," parts)
      | Throw e => Throw e
      end
  | VObj props =>
      if owns props "toString" then Throw (TypeError NoPrimitive)
      else Ok "[object Object]"
  end.

(** [v.toString()], with [callee] the text of [v.toString]. *)
Definition toString (callee : string) (v : value) : result string :=
  match v with
  | VUndefined | VNull => Throw (TypeError (ReadOfNullish v "toString"))
  | VObj props =>
      if owns props "toString" then Throw (TypeError (NotAFunction callee))
      else Ok "[object Object]"
  | _ => to_string v
  end.

(** [v.toISOString()], with [callee] the text of [v.toISOString]. *)
Definition toISOString (callee : string) (v : value) : result value :=
  match v with
  | VDate (Some t) => Ok (VStr (date_toISOString t))
  | VDate None => Throw (RangeError InvalidTime)
  | VUndefined | VNull => Throw (TypeError (ReadOfNullish v "toISOString"))
  | _ => Throw (TypeError (NotAFunction callee))
  end.

End WithEngine.

(** [s.slice(0, n)] *)
Definition slice0 (n : nat) (s : string) : string := substring 0 n s.

(** [encodeURIComponent] on code units below 256: the unreserved marks
    stay, every other code unit is written as the percent-escaped bytes
    of its UTF-8 form. *)
Definition unreserved (c : ascii) : bool :=
  let n := nat_of_ascii c in
  (Nat.leb 65 n && Nat.leb n 90) || (Nat.leb 97 n && Nat.leb n 122) ||
  (Nat.leb 48 n && Nat.leb n 57) ||
  existsb (Nat.eqb n) [45; 95; 46; 33; 126; 42; 39; 40; 41]%nat.

Definition hex_digit (n : nat) : ascii :=
  if Nat.ltb n 10 then ascii_of_nat (48 + n) else ascii_of_nat (55 + n).

Definition percent (n : nat) : string :=
  String "%"%char (String (hex_digit (n / 16)) (String (hex_digit (n mod 16)) "")).

Fixpoint encodeURIComponent (s : string) : string :=
  match s with
  | EmptyString => ""
  | String c rest =>
      let n := nat_of_ascii c in
      (if unreserved c then String c ""
       else if Nat.ltb n 128 then percent n
       else percent (192 + n / 64) ++ percent (128 + n mod 64))
      ++ encodeURIComponent rest
  end.

End JS.

(* ===================================================================== *)
(** ** The proxy *)
(* ===================================================================== *)

Module Server.
Import JS.
Local Open Scope js_scope.

(** *** The canonical event *)

Record Organizer : Type := {
  org_name : value;
  org_type : value;
  verified : bool
}.

Record Source : Type := { src_name : value }.

Record Registration : Type := { open : bool }.

Record CanonicalEvent : Type := {
  id : value;
  title : value;
  description : value;
  start : value;
  end_ : value;
  venue : value;
  organizer : Organizer;
  source : Source;
  tags : list value;
  external : value;
  registration : Registration
}.

(** [function normalizeEvent({ id, title, ..., external=true })]: the
    argument is destructured, which throws on [undefined] and [null] only;
    a name the argument lacks reads as [undefined], and the default of
    [external] applies when it reads as [undefined]. *)
Definition normalizeEvent (arg : value) : result CanonicalEvent :=
  if nullish arg
  then Throw (TypeError (NoDestructure arg))
  else
    let id := get arg "id" in
    let title := get arg "title" in
    let description := get arg "description" in
    let start := get arg "start" in
    let end_ := get arg "end" in
    let venue := get arg "venue" in
    let organizerName := get arg "organizerName" in
    let organizerType := get arg "organizerType" in
    let sourceName := get arg "sourceName" in
    let external := match get arg "external" with
                    | VUndefined => VBool true
                    | v => v
                    end in
    Ok {| id := id;
          title := or title (VStr "");
          description := or description (VStr "");
          start := or start (VStr "");
          end_ := or end_ (VStr "");
          venue := or venue (VStr "");
          organizer :=
            {| org_name := or (or organizerName sourceName) (VStr "Unknown");
               org_type := or organizerType (VStr "other");
               verified := strict_eq_str organizerType "government"
                           || strict_eq_str organizerType "company" |};
          source := {| src_name := or sourceName (VStr "external") |};
          tags := [];
          external := external;
          registration := {| open := true |} |}.

(** *** Expressions of the three mappings *)

(** [a || b] and [a && b] with the right operand evaluated on demand. *)
Definition or_else (a b : result value) : result value :=
  x <- a ;; if truthy x then Ok x else b.

Definition and_then (a b : result value) : result value :=
  x <- a ;; if truthy x then b else Ok x.

(** [v.a?.b], [v.a?.b?.c] and [v.a.b] *)
Definition member_opt (v : value) (a b : string) : result value :=
  x <- member v a ;; Ok (opt_member x b).

Definition member_opt_opt (v : value) (a b c : string) : result value :=
  x <- member v a ;; Ok (opt_member (opt_member x b) c).

Definition member_member (v : value) (a b : string) : result value :=
  x <- member v a ;; member x b.

(** *** Requests, responses and outbound calls *)

(** The two constants read from the environment.  A variable of the
    environment is a string when it is set, so both are strings. *)
Record config : Type := {
  EVENTBRITE_TOKEN : string;
  GOOGLE_API_KEY : string
}.

(** [process.env.NAME || ''], read once when the module loads. *)
Definition startup (process_env : string -> option string) : config :=
  let env k := match process_env k with
               | Some s => VStr s
               | None => VUndefined
               end in
  let text v := match v with VStr s => s | _ => "" end in
  {| EVENTBRITE_TOKEN := text (or (env "EVENTBRITE_TOKEN") (VStr ""));
     GOOGLE_API_KEY := text (or (env "GOOGLE_API_KEY") (VStr "")) |}.

Record request : Type := { query : list (string * value) }.

Inductive body : Type :=
| Events (events : list CanonicalEvent)
| Error (error : string) (details : option value).

Record response : Type := { status : nat; json : body }.

(** The two outbound operations.  [fetch] stands for [fetch(url, opts)]
    followed by [r.json()]: one request, settled with the parsed body. *)
Inductive call : Type :=
| fetch (url : string) (headers : list (string * string))
| ical_fromURL (url : value).

(** A handler either answers, or waits for an outbound call to settle, or
    writes to the error console and goes on, or throws outside its [try]
    block: then the promise of the handler is rejected and the handler has
    sent no answer. *)
Inductive io (A : Type) : Type :=
| Return (a : A)
| Await (c : call) (k : result value -> io A)
| ConsoleError (label : option string) (err : exn) (k : io A)
| Reject (err : exn).
Arguments Return {A} a.
Arguments Await {A} c k.
Arguments ConsoleError {A} label err k.
Arguments Reject {A} err.

Definition one : value := VNum (S754_finite false 1 0).

Section Handlers.
Context {engine : Engine}.

(** The callback of [(json.events || []).map(ev => ...)]. *)
Definition eventbrite_event (ev : value) : result CanonicalEvent :=
  ev_id <- member ev "id" ;;
  id_text <- to_string ev_id ;;
  title <- member_opt ev "name" "text" ;;
  description <- member_opt ev "description" "text" ;;
  start <- or_else (member_opt ev "start" "utc") (member_opt ev "start" "local") ;;
  end_ <- or_else (member_opt ev "end" "utc") (member_opt ev "end" "local") ;;
  venue <- or_else (member_opt_opt ev "venue" "address" "localized_address_display")
                   (member_opt ev "venue" "name") ;;
  organizerName <- member_opt ev "organizer" "name" ;;
  normalizeEvent (VObj [
    ("id", VStr ("eventbrite_" ++ id_text));
    ("title", title);
    ("description", description);
    ("start", start);
    ("end", end_);
    ("venue", venue);
    ("organizerName", organizerName);
    ("organizerType", VStr "company");
    ("sourceName", VStr "Eventbrite");
    ("external", VBool true) ]).

(** The callback of [(json.items || []).map(it => ...)]. *)
Definition gcal_event (it : value) : result CanonicalEvent :=
  it_id <- member it "id" ;;
  id_text <- to_string it_id ;;
  title <- member it "summary" ;;
  description <- or_else (member it "description") (Ok (VStr "")) ;;
  start <- and_then (member it "start")
             (or_else (member_member it "start" "dateTime")
                      (member_member it "start" "date")) ;;
  end_ <- and_then (member it "end")
             (or_else (member_member it "end" "dateTime")
                      (member_member it "end" "date")) ;;
  venue <- or_else (member it "location") (Ok (VStr "")) ;;
  organizerName <-
    or_else (or_else (and_then (member it "organizer")
                               (member_member it "organizer" "displayName"))
                     (member_opt it "organizer" "email"))
            (Ok (VStr "Google Calendar")) ;;
  normalizeEvent (VObj [
    ("id", VStr ("gcal_" ++ id_text));
    ("title", title);
    ("description", description);
    ("start", start);
    ("end", end_);
    ("venue", venue);
    ("organizerName", organizerName);
    ("organizerType", VStr "other");
    ("sourceName", VStr "Google Calendar");
    ("external", VBool true) ]).

(** [ev.start ? ev.start.toISOString() : ''] *)
Definition iso_or_empty (ev : value) (k : string) : result value :=
  d <- member ev k ;;
  if truthy d
  then (d' <- member ev k ;; toISOString ("ev." ++ k ++ ".toISOString") d')
  else Ok (VStr "").

(** The argument of [events.push] in the loop over the parsed document. *)
Definition ics_event (ev : value) : result CanonicalEvent :=
  u <- or_else (or_else (member ev "uid") (member ev "summary")) (Ok (VStr "")) ;;
  s <- toString "(ev.uid || ev.summary || '').toString" u ;;
  title <- or_else (member ev "summary") (Ok (VStr "")) ;;
  description <- or_else (member ev "description") (Ok (VStr "")) ;;
  start <- iso_or_empty ev "start" ;;
  end_ <- iso_or_empty ev "end" ;;
  venue <- or_else (member ev "location") (Ok (VStr "")) ;;
  organizerName <- or_else (member ev "organizer") (Ok (VStr "")) ;;
  normalizeEvent (VObj [
    ("id", VStr ("ics_" ++ slice0 40 s));
    ("title", title);
    ("description", description);
    ("start", start);
    ("end", end_);
    ("venue", venue);
    ("organizerName", organizerName);
    ("organizerType", VStr "other");
    ("sourceName", VStr "ICS");
    ("external", VBool true) ]).

(** [ev && ev.type === 'VEVENT'] *)
Definition is_vevent (ev : value) : result bool :=
  if truthy ev then (t <- member ev "type" ;; Ok (strict_eq_str t "VEVENT"))
  else Ok false.

(** [for (const k of Object.keys(parsed)) { ... }], with [events] the
    array built so far. *)
Fixpoint ics_loop (parsed : value) (ks : list string)
    (events : list CanonicalEvent) : result (list CanonicalEvent) :=
  match ks with
  | [] => Ok events
  | k :: ks' =>
      ev <- member parsed k ;;
      c <- is_vevent ev ;;
      if (c : bool)
      then (e <- ics_event ev ;; ics_loop parsed ks' (events ++ [e]))
      else ics_loop parsed ks' events
  end.

(** [arr.map(f)] on a value, with [callee] the text of [arr.map]: only an
    array has [map]. *)
Definition array_map (callee : string) (f : value -> result CanonicalEvent)
    (arr : value) : result (list CanonicalEvent) :=
  match arr with
  | VArr elems => mapM f elems
  | VUndefined | VNull => Throw (TypeError (ReadOfNullish arr "map"))
  | _ => Throw (TypeError (NotAFunction callee))
  end.

(** [app.get('/api/eventbrite', ...)].  The URL is built before the [try]
    block: a [q] or a [page] that has no text makes the handler throw
    there. *)
Definition api_eventbrite (cfg : config) (req : request) : io response :=
  if negb (truthy (VStr (EVENTBRITE_TOKEN cfg)))
  then Return {| status := 500;
                 json := Error "Missing EVENTBRITE_TOKEN env var" None |}
  else
    let q := or (assoc "q" (query req)) (VStr "") in
    let page := or (assoc "page" (query req)) one in
    match (q_text <- to_string q ;;
           page_text <- to_string page ;;
           Ok ("https://www.eventbriteapi.com/v3/events/search/?q="
               ++ encodeURIComponent q_text
               ++ "&expand=venue,organizer&page=" ++ page_text)) with
    | Throw err => Reject err
    | Ok url =>
        Await (fetch url [("Authorization",
                           "Bearer " ++ EVENTBRITE_TOKEN cfg)])
          (fun settled =>
             match (json <- settled ;;
                    evs <- member json "events" ;;
                    array_map "(json.events || []).map" eventbrite_event
                              (or evs (VArr []))) with
             | Ok events => Return {| status := 200; json := Events events |}
             | Throw err =>
                 ConsoleError None err
                   (Return {| status := 500;
                              json := Error "Eventbrite fetch failed"
                                            (Some (err_message err)) |})
             end)
    end.

(** [app.get('/api/google-calendar', ...)].  Here too the URL is built
    before the [try] block. *)
Definition api_google_calendar (cfg : config) (req : request) : io response :=
  let calendarId := assoc "calendarId" (query req) in
  if negb (truthy calendarId)
  then Return {| status := 400; json := Error "calendarId required" None |}
  else if negb (truthy (VStr (GOOGLE_API_KEY cfg)))
  then Return {| status := 500;
                 json := Error "Missing GOOGLE_API_KEY env var" None |}
  else
    match (id_text <- to_string calendarId ;;
           Ok ("https://www.googleapis.com/calendar/v3/calendars/"
               ++ encodeURIComponent id_text
               ++ "/events?key=" ++ GOOGLE_API_KEY cfg
               ++ "&singleEvents=true&orderBy=startTime")) with
    | Throw err => Reject err
    | Ok url =>
        Await (fetch url [])
          (fun settled =>
             match (json <- settled ;;
                    items <- member json "items" ;;
                    array_map "(json.items || []).map" gcal_event
                              (or items (VArr []))) with
             | Ok events => Return {| status := 200; json := Events events |}
             | Throw err =>
                 ConsoleError None err
                   (Return {| status := 500;
                              json := Error "Google Calendar fetch failed"
                                            (Some (err_message err)) |})
             end)
    end.

(** [app.get('/api/fetch-ics', ...)] *)
Definition api_fetch_ics (req : request) : io response :=
  let url := assoc "url" (query req) in
  if negb (truthy url)
  then Return {| status := 400;
                 json := Error "url query param required" None |}
  else
    Await (ical_fromURL url)
      (fun settled =>
         match (parsed <- settled ;;
                ks <- keys parsed ;;
                ics_loop parsed ks []) with
         | Ok events => Return {| status := 200; json := Events events |}
         | Throw err =>
             ConsoleError (Some "ICS fetch/parse error") err
               (Return {| status := 500;
                          json := Error "Failed to fetch/parse ICS"
                                        (Some (err_message err)) |})
         end).

End Handlers.

(** Running a handler against the outside world: the answer it sends, if
    it sends one, the outbound calls made, in order, and the number of
    console lines written. *)
Record outcome : Type := {
  answer : option response;
  outbound : list call;
  logged : nat
}.

Fixpoint run (world : call -> result value) (p : io response) : outcome :=
  match p with
  | Return r => {| answer := Some r; outbound := []; logged := 0 |}
  | Reject _ => {| answer := None; outbound := []; logged := 0 |}
  | Await c k =>
      let o := run world (k (world c)) in
      {| answer := answer o; outbound := c :: outbound o; logged := logged o |}
  | ConsoleError _ _ k =>
      let o := run world k in
      {| answer := answer o; outbound := outbound o; logged := S (logged o) |}
  end.

End Server.

(* ===================================================================== *)
(** ** Vocabulary of the properties *)
(* ===================================================================== *)

Import JS Server.

(** [a || b || ... || z]: the first truthy operand, else the last one. *)
Fixpoint or_chain (l : list value) : value :=
  match l with
  | [] => VUndefined
  | [v] => v
  | v :: rest => if truthy v then v else or_chain rest
  end.

(** A field [k] of the argument [fields], resolved to [out] with default
    [d]: the default when the field is absent or falsy, the supplied
    value otherwise. *)
Definition defaults_to (k : string) (fields : list (string * value))
    (out d : value) : Prop :=
  (~ In k (map fst fields) -> out = d) /\
  (truthy (assoc k fields) = false -> out = d) /\
  (truthy (assoc k fields) = true -> out = assoc k fields).

(** The three sources, the prefix each puts before the identifiers it
    makes, and the mapping each applies to one raw record. *)
Inductive adapter : Type := Eventbrite | GoogleCalendar | ICS.

Definition prefix_of (a : adapter) : string :=
  match a with
  | Eventbrite => "eventbrite_"
  | GoogleCalendar => "gcal_"
  | ICS => "ics_"
  end.

Definition convert {engine : Engine} (a : adapter) (raw : value)
  : result CanonicalEvent :=
  match a with
  | Eventbrite => eventbrite_event raw
  | GoogleCalendar => gcal_event raw
  | ICS => ics_event raw
  end.

(** The UTC-qualified and the locally-qualified timestamp of the [side]
    ("start" or "end") of an Eventbrite record, and what it is for one of
    them to be present: the side of the record is an object with the key. *)
Definition utc_of (ev : value) (side : string) : value :=
  opt_member (get ev side) "utc".

Definition local_of (ev : value) (side : string) : value :=
  opt_member (get ev side) "local".

Definition has_key (v : value) (k : string) : Prop :=
  In k (map fst (own_props v)).

Definition present (ev : value) (side k : string) : Prop :=
  has_key (get ev side) k.

(** Whether the handler of the calendar documents takes a component of the
    parsed document for an event, and whether it can render a [start] or
    [end] it finds there: nothing to render, or a valid date. *)
Definition kind_is_event (ev : value) : bool :=
  truthy ev && strict_eq_str (get ev "type") "VEVENT".

Definition date_ok (v : value) : bool :=
  negb (truthy v) ||
  match v with
  | VDate (Some _) => true
  | _ => false
  end.

Definition dates_ok (ev : value) : bool :=
  date_ok (get ev "start") && date_ok (get ev "end").

(** The three routes that reach out, the handler of each, and the
    [error] text of its catch block. *)
Inductive endpoint : Type := EventbriteSearch | GoogleCalendarFeed | FetchIcs.

Definition handle {engine : Engine} (ep : endpoint) (cfg : config)
    (req : request) : io response :=
  match ep with
  | EventbriteSearch => api_eventbrite cfg req
  | GoogleCalendarFeed => api_google_calendar cfg req
  | FetchIcs => api_fetch_ics req
  end.

Definition fetch_failed (ep : endpoint) : string :=
  match ep with
  | EventbriteSearch => "Eventbrite fetch failed"
  | GoogleCalendarFeed => "Google Calendar fetch failed"
  | FetchIcs => "Failed to fetch/parse ICS"
  end.

(** Characters that cannot end or split a URL component: the unreserved
    ones, and what a percent escape is written with. *)
Definition uri_safe (c : ascii) : bool :=
  unreserved c ||
  let n := nat_of_ascii c in
  Nat.eqb n 37 || (Nat.leb 65 n && Nat.leb n 70).

Fixpoint all_chars (p : ascii -> bool) (s : string) : bool :=
  match s with
  | EmptyString => true
  | String c rest => p c && all_chars p rest
  end.

(** Whether a value has a text: every value has one but an object with a
    property of its own named [toString], and an array with such an
    element, however deep. *)
Fixpoint stringable (v : value) : bool :=
  match v with
  | VArr elems => forallb stringable elems
  | VObj props => negb (owns props "toString")
  | _ => true
  end.

(** What the identifier of a calendar-document component is cut from, and
    whether the component can be made an event of: its dates can be
    rendered and what its identifier is cut from has a text. *)
Definition ics_id_source (ev : value) : value :=
  or_chain [get ev "uid"; get ev "summary"; VStr ""].

Definition ics_mappable (ev : value) : bool :=
  dates_ok ev && stringable (ics_id_source ev).

(** An engine to run the model on, where a run needs one: a stand-in that
    writes every number as 1 and every date as the epoch. *)
Definition sample_engine : Engine :=
  {| number_to_string := fun _ => "1";
     date_to_string := fun _ => "Invalid Date";
     date_toISOString := fun _ => "1970-01-01T00:00:00.000Z";
     fault_message := fun f =>
       match f with
       | ReadOfNullish VNull k =>
           "Cannot read properties of null (reading '" ++ k ++ "')"
       | ReadOfNullish _ k =>
           "Cannot read properties of undefined (reading '" ++ k ++ "')"
       | NotAFunction callee => callee ++ " is not a function"
       | NoPrimitive => "Cannot convert object to primitive value"
       | NoObject => "Cannot convert undefined or null to object"
       | NoDestructure _ => "Cannot destructure the argument"
       | InvalidTime => "Invalid time value"
       end |}.

(** Concrete records, requests and surroundings. *)
Definition no_upstream : call -> result value :=
  fun _ => Throw (Rejection (VStr "network unreachable")).

Definition no_env : string -> option string := fun _ => None.

Definition company_record : value := VObj [("organizerType", VStr "company")].

Definition foo_record : value :=
  VObj [("organizerName", VStr ""); ("sourceName", VStr "Foo")].

Definition eventbrite_123 : value := VObj [("id", VStr "123")].
Definition ics_abc : value := VObj [("uid", VStr "abc")].

Definition eventbrite_both : value :=
  VObj [("id", VStr "123");
        ("start", VObj [("utc", VStr "2024-05-01T04:30:00Z");
                        ("local", VStr "2024-05-01T10:00:00")])].

Definition eventbrite_empty_utc : value :=
  VObj [("id", VStr "123");
        ("start", VObj [("utc", VStr "");
                        ("local", VStr "2024-05-01T10:00:00")])].

Definition long_uid : string :=
  "0123456789abcdefghij0123456789abcdefghij-tail@example.org".

Definition ics_long_uid : value :=
  VObj [("type", VStr "VEVENT"); ("uid", VStr long_uid)].

Definition ics_request : request :=
  {| query := [("url", VStr "https://example.org/feed.ics")] |}.

Definition timezone_and_event : list (string * value) :=
  [("Europe/Paris", VObj [("type", VStr "VTIMEZONE")]);
   ("uid-1", VObj [("type", VStr "VEVENT"); ("uid", VStr "uid-1");
                   ("summary", VStr "Open day");
                   ("start", VDate (Some 1714559400000%Z))])].

Definition timezone_and_unparsed_start : list (string * value) :=
  [("Europe/Paris", VObj [("type", VStr "VTIMEZONE")]);
   ("uid-1", VObj [("type", VStr "VEVENT"); ("uid", VStr "uid-1");
                   ("summary", VStr "Open day");
                   ("start", VStr "2024-05-01 10:30")])].

Definition eventbrite_fest : value :=
  VObj [("id", VStr "77");
        ("name", VObj [("text", VStr "Tech fest")]);
        ("venue", VObj [("name", VStr "Main hall")])].

Definition gcal_item : value :=
  VObj [("id", VStr "abc");
        ("summary", VStr "Alumni meet");
        ("start", VObj [("dateTime", VStr "2024-05-01T10:00:00+05:30");
                        ("date", VStr "2024-05-01")]);
        ("organizer", VObj [("email", VStr "office@college.example")])].

Definition ics_open_day : value :=
  VObj [("type", VStr "VEVENT"); ("uid", VStr "uid-1");
        ("summary", VStr "Open day");
        ("start", VDate (Some 1714559400000%Z))].

Definition token_env : string -> option string :=
  fun k => if String.eqb k "EVENTBRITE_TOKEN" then Some "secret"
           else if String.eqb k "GOOGLE_API_KEY" then Some "key"
           else None.

Definition eventbrite_request : request :=
  {| query := [("q", VStr "tech fest")] |}.

Definition eventbrite_call : call :=
  fetch "https://www.eventbriteapi.com/v3/events/search/?q=tech%20fest&expand=venue,organizer&page=1"
        [("Authorization", "Bearer secret")].

Definition eventbrite_body : value :=
  VObj [("events", VArr [eventbrite_123; eventbrite_fest])].

Definition gcal_request : request :=
  {| query := [("calendarId", VStr "college@group.calendar.google.com")] |}.

Definition gcal_call : call :=
  fetch "https://www.googleapis.com/calendar/v3/calendars/college%40group.calendar.google.com/events?key=key&singleEvents=true&orderBy=startTime"
        [].

Definition gcal_body : value := VObj [("items", VArr [gcal_item])].

Definition ics_call : call :=
  ical_fromURL (VStr "https://example.org/feed.ics").

(* ===================================================================== *)
(** ** Basic facts *)
(* ===================================================================== *)

Lemma assoc_absent k fields :
  ~ In k (map fst fields) -> assoc k fields = VUndefined.
Proof.
  induction fields as [|[k' v] rest IH]; simpl; intros Hk; [reflexivity|].
  destruct (String.eqb_spec k k') as [->|Hne].
  - exfalso. apply Hk. now left.
  - apply IH. intros Hin. apply Hk. now right.
Qed.

Lemma get_obj props k : get (VObj props) k = assoc k props.
Proof. reflexivity. Qed.

Lemma truthy_str s : truthy (VStr s) = true <-> s <> "".
Proof. destruct s; simpl; split; congruence. Qed.

Lemma or_truthy a b : truthy a = true -> or a b = a.
Proof. unfold or. now intros ->. Qed.

Lemma or_falsy a b : truthy a = false -> or a b = b.
Proof. unfold or. now intros ->. Qed.

Lemma defaults_to_or k fields d :
  defaults_to k fields (or (assoc k fields) d) d.
Proof.
  repeat split.
  - intros Habs. rewrite (assoc_absent _ _ Habs). reflexivity.
  - apply or_falsy.
  - apply or_truthy.
Qed.

Lemma bind_Ok {A B} (r : result A) (k : A -> result B) b :
  bind r k = Ok b -> exists a, r = Ok a /\ k a = Ok b.
Proof. destruct r as [a|e]; simpl; [eauto | discriminate]. Qed.

Lemma member_Ok v k x :
  member v k = Ok x -> nullish v = false /\ x = get v k.
Proof.
  unfold member. destruct (nullish v); [discriminate|].
  intros [= <-]. now split.
Qed.

Lemma member_not_nullish v k : nullish v = false -> member v k = Ok (get v k).
Proof. unfold member. now intros ->. Qed.

Lemma truthy_not_nullish v : truthy v = true -> nullish v = false.
Proof. destruct v; simpl; congruence. Qed.

Lemma normalizeEvent_Ok arg e :
  normalizeEvent arg = Ok e ->
  nullish arg = false /\
  id e = get arg "id" /\
  title e = or (get arg "title") (VStr "") /\
  description e = or (get arg "description") (VStr "") /\
  start e = or (get arg "start") (VStr "") /\
  end_ e = or (get arg "end") (VStr "") /\
  venue e = or (get arg "venue") (VStr "") /\
  org_name (organizer e) =
    or (or (get arg "organizerName") (get arg "sourceName")) (VStr "Unknown") /\
  org_type (organizer e) = or (get arg "organizerType") (VStr "other") /\
  verified (organizer e) =
    (strict_eq_str (get arg "organizerType") "government"
     || strict_eq_str (get arg "organizerType") "company") /\
  src_name (source e) = or (get arg "sourceName") (VStr "external").
Proof.
  unfold normalizeEvent. destruct (nullish arg); [discriminate|].
  intros [= <-]. simpl. repeat split.
Qed.

(* ===================================================================== *)
(** ** The normaliser *)
(* ===================================================================== *)

(** C1. On every argument record, whatever subset of the ten fields it
    carries, [normalizeEvent] returns an event and does not throw; [title],
    [description], [start], [end] and [venue] are the empty string when the
    field is absent or falsy and the supplied value otherwise,
    [organizer.type] defaults to "other", [source.name] to "external",
    [tags] is empty, [registration.open] is true, and [external] is true
    when the field is omitted and the supplied value otherwise; [id] is
    handed through as it came. *)
Theorem normalizeEvent_total_defaults (fields : list (string * value)) :
  exists e,
    normalizeEvent (VObj fields) = Ok e /\
    id e = assoc "id" fields /\
    defaults_to "title" fields (title e) (VStr "") /\
    defaults_to "description" fields (description e) (VStr "") /\
    defaults_to "start" fields (start e) (VStr "") /\
    defaults_to "end" fields (end_ e) (VStr "") /\
    defaults_to "venue" fields (venue e) (VStr "") /\
    defaults_to "organizerType" fields (org_type (organizer e)) (VStr "other") /\
    defaults_to "sourceName" fields (src_name (source e)) (VStr "external") /\
    tags e = [] /\
    open (registration e) = true /\
    (~ In "external" (map fst fields) -> external e = VBool true) /\
    (assoc "external" fields <> VUndefined ->
     external e = assoc "external" fields).
Proof.
  eexists. split; [reflexivity|]. cbn [id title description start end_ venue
    organizer source tags external registration org_type src_name open].
  rewrite !get_obj.
  repeat (split; [first [apply defaults_to_or | reflexivity]|]).
  split.
  - intros Habs. now rewrite (assoc_absent _ _ Habs).
  - intros Hdef. destruct (assoc "external" fields); congruence.
Qed.

(** C2. [organizer.verified] is true exactly when the supplied
    [organizerType] is the string "government" or the string "company";
    it is false for every other value, the empty string and an absent
    field among them. *)
Theorem verified_iff_government_or_company (arg : value) (e : CanonicalEvent) :
  normalizeEvent arg = Ok e ->
  (verified (organizer e) = true <->
   get arg "organizerType" = VStr "government" \/
   get arg "organizerType" = VStr "company") /\
  (get arg "organizerType" = VStr "" -> verified (organizer e) = false) /\
  (get arg "organizerType" = VUndefined -> verified (organizer e) = false).
Proof.
  intros H. apply normalizeEvent_Ok in H.
  destruct H as (_ & _ & _ & _ & _ & _ & _ & _ & _ & Hv & _).
  rewrite Hv. split; [|split; intros ->; reflexivity].
  rewrite orb_true_iff. unfold strict_eq_str.
  destruct (get arg "organizerType") as [| |b|n|s|t|l|p];
    try (split; intros [?|?]; discriminate).
  rewrite !String.eqb_eq. split; (intros [?|?]; [left | right]; congruence).
Qed.

(** C3. [organizer.name] is the first non-empty value of the chain
    [organizerName], [sourceName], "Unknown" (for a string, non-empty and
    truthy are the same); an empty [organizerName] with [sourceName] "Foo"
    gives "Foo", and both empty give "Unknown". *)
Theorem organizer_name_fallback (arg : value) (e : CanonicalEvent) :
  normalizeEvent arg = Ok e ->
  org_name (organizer e) =
    or_chain [get arg "organizerName"; get arg "sourceName"; VStr "Unknown"] /\
  (forall n, get arg "organizerName" = VStr n -> n <> "" ->
             org_name (organizer e) = VStr n) /\
  (forall s, truthy (get arg "organizerName") = false ->
             get arg "sourceName" = VStr s -> s <> "" ->
             org_name (organizer e) = VStr s) /\
  (get arg "organizerName" = VStr "" -> get arg "sourceName" = VStr "Foo" ->
   org_name (organizer e) = VStr "Foo") /\
  (get arg "organizerName" = VStr "" -> get arg "sourceName" = VStr "" ->
   org_name (organizer e) = VStr "Unknown").
Proof.
  intros H. apply normalizeEvent_Ok in H.
  destruct H as (_ & _ & _ & _ & _ & _ & _ & Hn & _).
  rewrite Hn. cbn [or_chain]. unfold or. repeat split.
  - destruct (truthy (get arg "organizerName")) eqn:Ha; cbv iota;
      [now rewrite Ha|].
    destruct (truthy (get arg "sourceName")); reflexivity.
  - intros n -> Hne. apply truthy_str in Hne. now rewrite !Hne.
  - intros s -> -> Hne. apply truthy_str in Hne. now rewrite !Hne.
  - intros -> ->. reflexivity.
  - intros -> ->. reflexivity.
Qed.

(* ===================================================================== *)
(** ** The three mappings *)
(* ===================================================================== *)

Lemma or_else_pure a b : or_else (Ok a) (Ok b) = Ok (or a b).
Proof. unfold or_else, or. simpl. now destruct (truthy a). Qed.

Lemma or_str_not_nullish v s : nullish (or v (VStr s)) = false.
Proof.
  unfold or. destruct (truthy v) eqn:Hv; [|reflexivity].
  now apply truthy_not_nullish.
Qed.

Lemma or_or_chain a b c : or (or a b) c = or_chain [a; b; c].
Proof.
  cbn [or_chain]. unfold or.
  destruct (truthy a) eqn:Ha; cbv iota; [now rewrite Ha|reflexivity].
Qed.

Lemma get_absent v k : ~ has_key v k -> get v k = VUndefined.
Proof. apply assoc_absent. Qed.

Lemma opt_member_absent v k : ~ has_key v k -> opt_member v k = VUndefined.
Proof.
  intros H. unfold opt_member. rewrite (get_absent _ _ H).
  now destruct (nullish v).
Qed.

Lemma substring_0_length n s :
  String.length (substring 0 n s) = Nat.min n (String.length s).
Proof.
  revert s. induction n as [|n IH]; intros [|c s]; simpl; auto.
Qed.

Lemma substring_0_prefix n s : prefix (substring 0 n s) s = true.
Proof.
  revert s. induction n as [|n IH]; intros [|c s]; simpl; auto.
  destruct (ascii_dec c c); [apply IH | congruence].
Qed.

Lemma prefix_app p s : prefix p (p ++ s) = true.
Proof.
  induction p as [|c p IH]; simpl; [now destruct s|].
  destruct (ascii_dec c c); [apply IH | congruence].
Qed.

Lemma value_nested_ind (P : value -> Prop) :
  (forall v, (forall elems, v <> VArr elems) -> P v) ->
  (forall elems, Forall P elems -> P (VArr elems)) ->
  forall v, P v.
Proof.
  intros Hother Harr. fix IH 1. intros v.
  destruct v as [| |b|n|s|t|elems|props]; try (apply Hother; discriminate).
  apply Harr. induction elems as [|x rest IHl]; constructor;
    [apply IH | exact IHl].
Qed.

Lemma sequence_Ok_iff {A} (l : list (result A)) :
  (exists parts, sequence l = Ok parts) <->
  Forall (fun r => exists a, r = Ok a) l.
Proof.
  induction l as [|r rest IH]; cbn [sequence].
  - split; [constructor | eauto].
  - split.
    + intros (parts & H). destruct r as [a|e]; [|discriminate].
      constructor; [eauto|]. apply IH.
      destruct (sequence rest); [eauto | discriminate].
    + intros H. inversion H as [|? ? (a & ->) Hrest]; subst.
      apply IH in Hrest. destruct Hrest as (parts & ->). eauto.
Qed.

Section Texts.
Context {engine : Engine}.

(** A value has a text exactly when no object with a [toString] of its
    own stands in the way. *)
Lemma to_string_Ok_iff v :
  (exists s, to_string v = Ok s) <-> stringable v = true.
Proof.
  induction v as [v Hv | elems IH] using value_nested_ind.
  - destruct v as [| |[]|n|s|t|elems|props]; cbn [to_string stringable];
      try (split; eauto; fail).
    + now elim (Hv elems).
    + destruct (owns props "toString"); cbn [negb];
        split; eauto; try discriminate. intros (s & H). discriminate.
  - cbn [to_string stringable]. rewrite forallb_forall, <- Forall_forall.
    split.
    + intros (s & H).
      destruct (sequence _) as [parts|] eqn:Hseq; [|discriminate].
      assert (Hall : Forall (fun r => exists a, r = Ok a)
                (map (fun x => match x with
                               | VUndefined | VNull => Ok ""
                               | _ => to_string x
                               end) elems))
        by (apply sequence_Ok_iff; eauto).
      clear Hseq H. induction IH as [|x rest Hx _ IHrest]; [constructor|].
      cbn [map] in Hall. inversion Hall as [|? ? Hhead Htail]; subst.
      constructor; [|now apply IHrest].
      apply Hx. destruct x; first [exact Hhead | eexists; reflexivity].
    + intros Hall.
      assert (Hseq : exists parts,
                sequence (map (fun x => match x with
                                        | VUndefined | VNull => Ok ""
                                        | _ => to_string x
                                        end) elems) = Ok parts).
      { apply sequence_Ok_iff.
        induction IH as [|x rest Hx _ IHrest]; [constructor|].
        inversion Hall as [|? ? Hhead Htail]; subst.
        cbn [map]. constructor; [|now apply IHrest].
        apply Hx in Hhead. destruct x; first [exact Hhead | eexists; reflexivity]. }
      destruct Hseq as (parts & ->). eauto.
Qed.

Lemma toString_Ok callee v s :
  toString callee v = Ok s -> nullish v = false /\ to_string v = Ok s.
Proof.
  destruct v as [| |b|n|t|d|elems|props]; cbn [toString nullish];
    try discriminate; auto.
  cbn [to_string]. destruct (owns props "toString"); [discriminate | auto].
Qed.

Lemma toString_text callee v s :
  nullish v = false -> to_string v = Ok s -> toString callee v = Ok s.
Proof.
  destruct v as [| |b|n|t|d|elems|props]; cbn [toString nullish];
    try discriminate; auto.
  cbn [to_string]. destruct (owns props "toString"); [discriminate | auto].
Qed.

End Texts.

Section Mappings.
Context {engine : Engine}.

Ltac invert_binds H :=
  repeat (apply bind_Ok in H; cbv beta in H;
          let x := fresh "x" in
          let Hx := fresh "Hx" in
          destruct H as (x & Hx & H)).

Lemma eventbrite_event_Ok ev e :
  eventbrite_event ev = Ok e ->
  nullish ev = false /\
  (exists s, to_string (get ev "id") = Ok s /\
             id e = VStr ("eventbrite_" ++ s)) /\
  start e = or (or (utc_of ev "start") (local_of ev "start")) (VStr "") /\
  end_ e = or (or (utc_of ev "end") (local_of ev "end")) (VStr "").
Proof.
  unfold eventbrite_event, utc_of, local_of.
  destruct (nullish ev) eqn:Hev.
  - unfold member at 1. rewrite Hev. discriminate.
  - unfold member_opt, member_opt_opt.
    rewrite !(member_not_nullish _ _ Hev). cbn [bind].
    destruct (to_string (get ev "id")) as [s|] eqn:Hs; [|discriminate].
    cbn [bind]. rewrite !or_else_pure. cbn [bind].
    intros H. apply normalizeEvent_Ok in H. rewrite !get_obj in H.
    cbn [assoc String.eqb Ascii.eqb Bool.eqb] in H.
    destruct H as (_ & Hid & _ & _ & Hst & He & _). eauto 6.
Qed.

Lemma gcal_event_Ok it e :
  gcal_event it = Ok e ->
  nullish it = false /\
  exists s, to_string (get it "id") = Ok s /\ id e = VStr ("gcal_" ++ s).
Proof.
  unfold gcal_event. intros H.
  apply bind_Ok in H. destruct H as (it_id & Hid & H).
  apply member_Ok in Hid. destruct Hid as [Hit ->].
  apply bind_Ok in H. destruct H as (s & Hs & H).
  invert_binds H. apply normalizeEvent_Ok in H. rewrite !get_obj in H.
    cbn [assoc String.eqb Ascii.eqb Bool.eqb] in H.
  destruct H as (_ & Hid & _). eauto.
Qed.

Lemma ics_event_Ok ev e :
  ics_event ev = Ok e ->
  nullish ev = false /\
  exists s,
    to_string (or_chain [get ev "uid"; get ev "summary"; VStr ""]) = Ok s /\
    id e = VStr ("ics_" ++ substring 0 40 s).
Proof.
  unfold ics_event. destruct (nullish ev) eqn:Hev.
  - unfold member at 1. rewrite Hev. discriminate.
  - rewrite !(member_not_nullish _ _ Hev), !or_else_pure.
    intros H. apply bind_Ok in H. destruct H as (u & [= <-] & H).
    apply bind_Ok in H. destruct H as (s & Hs & H).
    apply toString_Ok in Hs. destruct Hs as (_ & Hs).
    rewrite or_or_chain in Hs.
    invert_binds H. apply normalizeEvent_Ok in H.
    rewrite !get_obj in H.
    cbn [assoc String.eqb Ascii.eqb Bool.eqb] in H.
    destruct H as (_ & Hid & _). eauto.
Qed.

Lemma convert_id a raw e :
  convert a raw = Ok e -> exists suffix, id e = VStr (prefix_of a ++ suffix).
Proof.
  destruct a; cbn [convert]; intros H.
  - apply eventbrite_event_Ok in H. destruct H as (_ & (s & _ & ->) & _).
    eexists. reflexivity.
  - apply gcal_event_Ok in H. destruct H as (_ & s & _ & ->).
    eexists. reflexivity.
  - apply ics_event_Ok in H. destruct H as (_ & s & _ & ->).
    eexists. reflexivity.
Qed.

(** C4. Every event one of the three mappings produces has for [id] a
    non-empty string that begins with the prefix of its source, and two
    events of different sources never have the same [id]. *)
Theorem id_prefixed_per_source (a b : adapter) (raw1 raw2 : value)
    (e1 e2 : CanonicalEvent) :
  convert a raw1 = Ok e1 ->
  convert b raw2 = Ok e2 ->
  (exists s, id e1 = VStr s /\ s <> "" /\ prefix (prefix_of a) s = true) /\
  (a <> b -> id e1 <> id e2).
Proof.
  intros H1 H2.
  apply convert_id in H1. destruct H1 as (s1 & H1).
  apply convert_id in H2. destruct H2 as (s2 & H2).
  split.
  - exists (prefix_of a ++ s1). repeat split; auto using prefix_app.
    destruct a; discriminate.
  - intros Hab. rewrite H1, H2.
    destruct a, b; try congruence; simpl; discriminate.
Qed.

(** C5, as the code has it.  The normalised [start] (and likewise [end])
    of an Eventbrite record is the UTC-qualified timestamp when that one is
    truthy, that is present and not empty; otherwise it is the
    locally-qualified timestamp when that one is truthy, and the empty
    string when neither is.  An absent timestamp is not truthy. *)
Theorem eventbrite_timestamp_preference (ev : value) (e : CanonicalEvent) :
  eventbrite_event ev = Ok e ->
  (truthy (utc_of ev "start") = true -> start e = utc_of ev "start") /\
  (truthy (utc_of ev "start") = false ->
   truthy (local_of ev "start") = true -> start e = local_of ev "start") /\
  (truthy (utc_of ev "start") = false ->
   truthy (local_of ev "start") = false -> start e = VStr "") /\
  (truthy (utc_of ev "end") = true -> end_ e = utc_of ev "end") /\
  (truthy (utc_of ev "end") = false ->
   truthy (local_of ev "end") = true -> end_ e = local_of ev "end") /\
  (truthy (utc_of ev "end") = false ->
   truthy (local_of ev "end") = false -> end_ e = VStr "") /\
  (forall side, ~ present ev side "utc" -> truthy (utc_of ev side) = false) /\
  (forall side, ~ present ev side "local" ->
                truthy (local_of ev side) = false).
Proof.
  intros H. apply eventbrite_event_Ok in H.
  destruct H as (_ & _ & -> & ->). unfold or.
  repeat split.
  - intros Hu. now rewrite !Hu.
  - intros Hu Hl. now rewrite Hu, !Hl.
  - intros Hu Hl. now rewrite Hu, Hl.
  - intros Hu. now rewrite !Hu.
  - intros Hu Hl. now rewrite Hu, !Hl.
  - intros Hu Hl. now rewrite Hu, Hl.
  - intros side Habs. unfold utc_of. now rewrite opt_member_absent.
  - intros side Habs. unfold local_of. now rewrite opt_member_absent.
Qed.

(** C8. The [id] of every event the calendar-document mapping emits is
    "ics_" followed by the first 40 characters of the text of the
    component's [uid], else of its [summary], else of the empty string; a
    [uid] of more than 40 characters gives exactly its first 40. *)
Theorem ics_id_first_40 (ev : value) (e : CanonicalEvent) :
  ics_event ev = Ok e ->
  (exists s,
     to_string (or_chain [get ev "uid"; get ev "summary"; VStr ""]) = Ok s /\
     id e = VStr ("ics_" ++ substring 0 40 s)) /\
  (forall u, get ev "uid" = VStr u -> u <> "" ->
             id e = VStr ("ics_" ++ substring 0 40 u)) /\
  (forall u, get ev "uid" = VStr u -> 40 < String.length u ->
             exists suffix, id e = VStr ("ics_" ++ suffix) /\
                            String.length suffix = 40 /\
                            prefix suffix u = true) /\
  (forall s, truthy (get ev "uid") = false -> get ev "summary" = VStr s ->
             id e = VStr ("ics_" ++ substring 0 40 s)) /\
  (truthy (get ev "uid") = false -> truthy (get ev "summary") = false ->
   id e = VStr "ics_").
Proof.
  intros H. apply ics_event_Ok in H. destruct H as (_ & s & Hs & ->).
  cbn [or_chain] in Hs.
  assert (Hstr : forall u, get ev "uid" = VStr u -> u <> "" ->
            VStr ("ics_" ++ substring 0 40 s) =
            VStr ("ics_" ++ substring 0 40 u)).
  { intros u Hu Hne. rewrite Hu in Hs. apply truthy_str in Hne.
    rewrite Hne in Hs. cbn [to_string] in Hs. congruence. }
  split; [eauto|]. repeat split.
  - exact Hstr.
  - intros u Hu Hlen. exists (substring 0 40 u). repeat split.
    + apply Hstr; [exact Hu|]. intros ->. simpl in Hlen. lia.
    + rewrite substring_0_length. lia.
    + apply substring_0_prefix.
  - intros t Hu Ht. rewrite Hu, Ht in Hs.
    destruct t; simpl in Hs; injection Hs as <-; reflexivity.
  - intros Hu Hm. rewrite Hu, Hm in Hs. simpl in Hs.
    injection Hs as <-. reflexivity.
Qed.

End Mappings.

(* ===================================================================== *)
(** ** The endpoints *)
(* ===================================================================== *)

Section Endpoints.
Context {engine : Engine}.

(** C6. A request to the calendar-feed endpoint without the [calendarId]
    query parameter is answered with status 400 and the body
    [{error: "calendarId required"}], and no outbound call is made. *)
Theorem calendarId_absent_400 (cfg : config) (req : request)
    (world : call -> result value) :
  ~ In "calendarId" (map fst (query req)) ->
  api_google_calendar cfg req =
    Return {| status := 400; json := Error "calendarId required" None |} /\
  run world (api_google_calendar cfg req) =
    {| answer := Some {| status := 400;
                         json := Error "calendarId required" None |};
       outbound := [];
       logged := 0 |}.
Proof.
  intros Habs. unfold api_google_calendar.
  rewrite (assoc_absent _ _ Habs). split; reflexivity.
Qed.

(** C7. While [EVENTBRITE_TOKEN] is unset, the Eventbrite endpoint answers
    every request with status 500 and the body
    [{error: "Missing EVENTBRITE_TOKEN env var"}]; it makes no outbound
    call and ends in an answer. *)
Theorem eventbrite_token_unset_500 (process_env : string -> option string)
    (req : request) (world : call -> result value) :
  process_env "EVENTBRITE_TOKEN" = None ->
  run world (api_eventbrite (startup process_env) req) =
    {| answer := Some {| status := 500;
                         json := Error "Missing EVENTBRITE_TOKEN env var"
                                       None |};
       outbound := [];
       logged := 0 |}.
Proof.
  intros Hunset. unfold api_eventbrite, startup. cbn [EVENTBRITE_TOKEN].
  rewrite Hunset. reflexivity.
Qed.

(** C10. With both the [calendarId] query parameter and [GOOGLE_API_KEY]
    absent, the calendar-feed endpoint answers with the 400 of the missing
    parameter and not with the 500 of the missing key, which is what a
    request that does carry a [calendarId] gets. *)
Theorem missing_calendarId_before_missing_key
    (process_env : string -> option string) (req : request)
    (world : call -> result value) :
  ~ In "calendarId" (map fst (query req)) ->
  process_env "GOOGLE_API_KEY" = None ->
  answer (run world (api_google_calendar (startup process_env) req)) =
    Some {| status := 400; json := Error "calendarId required" None |} /\
  answer (run world (api_google_calendar (startup process_env) req)) <>
    Some {| status := 500;
            json := Error "Missing GOOGLE_API_KEY env var" None |} /\
  (forall req', truthy (assoc "calendarId" (query req')) = true ->
     answer (run world (api_google_calendar (startup process_env) req')) =
     Some {| status := 500;
             json := Error "Missing GOOGLE_API_KEY env var" None |}).
Proof.
  intros Habs Hunset.
  assert (H400 : answer (run world (api_google_calendar (startup process_env) req))
                 = Some {| status := 400;
                           json := Error "calendarId required" None |}).
  { unfold api_google_calendar. rewrite (assoc_absent _ _ Habs). reflexivity. }
  split; [exact H400|]. split; [rewrite H400; discriminate|].
  intros req' Hid. unfold api_google_calendar, startup. cbn [GOOGLE_API_KEY].
  rewrite Hid, Hunset. reflexivity.
Qed.

(** *** The loop over a parsed calendar document *)

Lemma is_vevent_kind ev : is_vevent ev = Ok (kind_is_event ev).
Proof.
  unfold is_vevent, kind_is_event.
  destruct (truthy ev) eqn:Hev; [|reflexivity].
  now rewrite (member_not_nullish _ _ (truthy_not_nullish _ Hev)).
Qed.

Lemma iso_or_empty_Ok ev k :
  nullish ev = false -> date_ok (get ev k) = true ->
  exists v, iso_or_empty ev k = Ok v.
Proof.
  intros Hev Hd. unfold iso_or_empty.
  rewrite !(member_not_nullish _ _ Hev). cbn [bind].
  unfold date_ok in Hd. destruct (truthy (get ev k)); [|eauto].
  destruct (get ev k) as [| | | | |[t|]| |]; try discriminate.
  cbn. eauto.
Qed.

Lemma ics_event_total ev :
  nullish ev = false -> ics_mappable ev = true ->
  exists e, ics_event ev = Ok e.
Proof.
  intros Hev Hm. unfold ics_mappable, dates_ok in Hm.
  apply andb_true_iff in Hm. destruct Hm as [Hd Hid].
  apply andb_true_iff in Hd. destruct Hd as [Hs He].
  destruct (iso_or_empty_Ok ev "start" Hev Hs) as (vs & Hvs).
  destruct (iso_or_empty_Ok ev "end" Hev He) as (ve & Hve).
  apply to_string_Ok_iff in Hid. destruct Hid as (s & Hid).
  unfold ics_id_source in Hid. rewrite <- or_or_chain in Hid.
  unfold ics_event.
  rewrite Hvs, Hve, !(member_not_nullish _ _ Hev), !or_else_pure.
  cbn [bind].
  rewrite (toString_text _ _ _ (or_str_not_nullish _ _) Hid).
  cbn [bind]. eexists. reflexivity.
Qed.

Lemma ics_loop_events props ks acc :
  (forall k, In k ks -> kind_is_event (assoc k props) = true ->
             ics_mappable (assoc k props) = true) ->
  exists evs,
    ics_loop (VObj props) ks acc = Ok (acc ++ evs)%list /\
    Forall2 (fun ev e => ics_event ev = Ok e)
      (filter kind_is_event (map (fun k => assoc k props) ks)) evs.
Proof.
  revert acc. induction ks as [|k ks IH]; intros acc Hok.
  - exists []. rewrite app_nil_r. split; [reflexivity | constructor].
  - cbn [ics_loop map filter]. cbn [member nullish bind]. rewrite get_obj.
    rewrite is_vevent_kind. cbn [bind].
    assert (Hks : forall k', In k' ks ->
              kind_is_event (assoc k' props) = true ->
              ics_mappable (assoc k' props) = true)
      by (intros k' Hin; apply Hok; now right).
    destruct (kind_is_event (assoc k props)) eqn:Hkind.
    + destruct (ics_event_total (assoc k props)) as (e & He).
      * unfold kind_is_event in Hkind. apply andb_true_iff in Hkind.
        now apply truthy_not_nullish.
      * apply Hok; [now left | exact Hkind].
      * rewrite He. cbn [bind].
        destruct (IH (acc ++ [e])%list Hks) as (evs & Hloop & Hall).
        exists (e :: evs). split.
        -- rewrite Hloop, <- app_assoc. reflexivity.
        -- now constructor.
    + apply IH, Hks.
Qed.

Lemma assoc_keys props :
  NoDup (map fst props) ->
  map (fun k => assoc k props) (map fst props) = map snd props.
Proof.
  induction props as [|[k v] rest IH]; [reflexivity|].
  cbn [map fst snd]. intros Hnd. inversion Hnd as [|? ? Hnotin Hrest]; subst.
  cbn [assoc]. rewrite String.eqb_refl. f_equal.
  rewrite <- (IH Hrest). apply map_ext_in. intros k' Hin.
  destruct (String.eqb_spec k' k) as [->|Hne]; [contradiction | reflexivity].
Qed.

(** C9, as the code has it.  When the calendar document is fetched and
    parsed, and every event component of it has for [start] and for [end]
    either nothing to render or a valid date, and for [uid] (else
    [summary]) a value that has a text, the endpoint answers 200 with one
    event per component of kind "VEVENT" and with nothing for the
    components of any other kind. *)
Theorem fetch_ics_one_event_per_vevent (req : request)
    (world : call -> result value) (props : list (string * value)) :
  truthy (assoc "url" (query req)) = true ->
  world (ical_fromURL (assoc "url" (query req))) = Ok (VObj props) ->
  NoDup (map fst props) ->
  (forall ev, In ev (map snd props) -> kind_is_event ev = true ->
              ics_mappable ev = true) ->
  exists events,
    answer (run world (api_fetch_ics req)) =
      Some {| status := 200; json := Events events |} /\
    Forall2 (fun ev e => ics_event ev = Ok e)
      (filter kind_is_event (map snd props)) events /\
    List.length events = List.length (filter kind_is_event (map snd props)).
Proof.
  intros Hurl Hworld Hnd Hok.
  destruct (ics_loop_events props (map fst props) []) as (evs & Hloop & Hall).
  { intros k Hin. apply Hok. rewrite <- (assoc_keys props Hnd).
    exact (in_map (fun k' => assoc k' props) _ _ Hin). }
  rewrite (assoc_keys props Hnd) in Hall.
  exists evs. repeat split.
  - unfold api_fetch_ics. rewrite Hurl. cbn [negb run].
    rewrite Hworld. cbn [bind keys nullish own_props]. rewrite Hloop.
    reflexivity.
  - exact Hall.
  - symmetry. eapply Forall2_length, Hall.
Qed.

End Endpoints.

(* ===================================================================== *)
(** ** The properties at concrete records *)
(* ===================================================================== *)

(** The empty record is normalised to the defaults. *)
Lemma normalizeEvent_total_defaults_witness :
  exists e, normalizeEvent (VObj []) = Ok e /\
            title e = VStr "" /\ org_type (organizer e) = VStr "other" /\
            external e = VBool true.
Proof.
  destruct (normalizeEvent_total_defaults [])
    as (e & He & _ & (Ht & _) & _ & _ & _ & _ & (Ho & _) & _ & _ & _ & Hx & _).
  exists e. repeat split.
  - exact He.
  - apply Ht. intros [].
  - apply Ho. intros [].
  - apply Hx. intros [].
Defined.

(** A record of organizer type "company" is verified. *)
Lemma verified_iff_government_or_company_witness :
  exists e, normalizeEvent company_record = Ok e /\
            verified (organizer e) = true.
Proof.
  eexists. split; [reflexivity|].
  apply (proj1 (verified_iff_government_or_company company_record _ eq_refl)).
  right. reflexivity.
Defined.

(** An empty organizer name falls back to the source name. *)
Lemma organizer_name_fallback_witness :
  exists e, normalizeEvent foo_record = Ok e /\
            org_name (organizer e) = VStr "Foo".
Proof.
  eexists. split; [reflexivity|].
  destruct (organizer_name_fallback foo_record _ eq_refl)
    as (_ & _ & _ & Hfoo & _).
  apply Hfoo; reflexivity.
Defined.

(** An Eventbrite event and a calendar-document event have different
    identifiers, the first one under the Eventbrite prefix. *)
Lemma id_prefixed_per_source_witness :
  exists e1 e2,
    @convert sample_engine Eventbrite eventbrite_123 = Ok e1 /\
    @convert sample_engine ICS ics_abc = Ok e2 /\
    (exists s, id e1 = VStr s /\ s <> "" /\ prefix "eventbrite_" s = true) /\
    id e1 <> id e2.
Proof.
  do 2 eexists. split; [reflexivity|]. split; [reflexivity|].
  destruct (@id_prefixed_per_source sample_engine Eventbrite ICS
              eventbrite_123 ics_abc _ _ eq_refl eq_refl) as [Hpre Hne].
  split; [exact Hpre|]. apply Hne. discriminate.
Defined.

(** With both timestamps there and not empty, [start] is the UTC one. *)
Lemma eventbrite_timestamp_preference_witness :
  exists e, @eventbrite_event sample_engine eventbrite_both = Ok e /\
            truthy (utc_of eventbrite_both "start") = true /\
            start e = VStr "2024-05-01T04:30:00Z".
Proof.
  eexists. split; [reflexivity|]. split; [reflexivity|].
  destruct (@eventbrite_timestamp_preference sample_engine eventbrite_both _
              eq_refl) as (Hutc & _).
  apply Hutc. reflexivity.
Defined.

(** C5 as stated fails: a record whose [start] carries both timestamps,
    the UTC one being the empty string, is normalised to the local one. *)
Lemma eventbrite_utc_present_but_empty :
  present eventbrite_empty_utc "start" "utc" /\
  present eventbrite_empty_utc "start" "local" /\
  exists e, @eventbrite_event sample_engine eventbrite_empty_utc = Ok e /\
            start e = local_of eventbrite_empty_utc "start" /\
            start e <> utc_of eventbrite_empty_utc "start".
Proof.
  split; [cbv; auto|]. split; [cbv; auto|].
  eexists. split; [reflexivity|]. split; [reflexivity | discriminate].
Defined.

(** Without [calendarId] the answer is the 400 and nothing goes out. *)
Lemma calendarId_absent_400_witness :
  ~ In "calendarId" (map fst (query {| query := [("q", VStr "x")] |})) /\
  run no_upstream
      (@api_google_calendar sample_engine (startup no_env)
         {| query := [("q", VStr "x")] |}) =
    {| answer := Some {| status := 400;
                         json := Error "calendarId required" None |};
       outbound := [];
       logged := 0 |}.
Proof.
  assert (Habs : ~ In "calendarId"
                   (map fst (query {| query := [("q", VStr "x")] |}))).
  { simpl. intros [H|[]]. discriminate H. }
  split; [exact Habs|].
  exact (proj2 (@calendarId_absent_400 sample_engine (startup no_env)
                  {| query := [("q", VStr "x")] |} no_upstream Habs)).
Defined.

(** Without the token the answer is the 500 and nothing goes out. *)
Lemma eventbrite_token_unset_500_witness :
  no_env "EVENTBRITE_TOKEN" = None /\
  run no_upstream
      (@api_eventbrite sample_engine (startup no_env) {| query := [] |}) =
    {| answer := Some {| status := 500;
                         json := Error "Missing EVENTBRITE_TOKEN env var"
                                       None |};
       outbound := [];
       logged := 0 |}.
Proof.
  split; [reflexivity|].
  exact (@eventbrite_token_unset_500 sample_engine no_env {| query := [] |}
           no_upstream eq_refl).
Defined.

(** Without parameter and key the answer is the 400. *)
Lemma missing_calendarId_before_missing_key_witness :
  ~ In "calendarId" (map fst (query {| query := [] |})) /\
  no_env "GOOGLE_API_KEY" = None /\
  answer (run no_upstream
            (@api_google_calendar sample_engine (startup no_env)
               {| query := [] |})) =
    Some {| status := 400; json := Error "calendarId required" None |}.
Proof.
  split; [intros []|]. split; [reflexivity|].
  exact (proj1 (@missing_calendarId_before_missing_key sample_engine no_env
                  {| query := [] |} no_upstream (fun H => H) eq_refl)).
Defined.

(** A [uid] of 57 characters contributes its first 40. *)
Lemma ics_id_first_40_witness :
  exists e, @ics_event sample_engine ics_long_uid = Ok e /\
            id e = VStr "ics_0123456789abcdefghij0123456789abcdefghij".
Proof.
  eexists. split; [reflexivity|].
  destruct (@ics_id_first_40 sample_engine ics_long_uid _ eq_refl)
    as (_ & Hstr & _).
  apply (Hstr long_uid); [reflexivity | discriminate].
Defined.

(** One timezone component and one event component give one event. *)
Lemma fetch_ics_one_event_per_vevent_witness :
  exists events,
    answer (run (fun _ => Ok (VObj timezone_and_event))
              (@api_fetch_ics sample_engine ics_request)) =
      Some {| status := 200; json := Events events |} /\
    List.length events = 1.
Proof.
  destruct (@fetch_ics_one_event_per_vevent sample_engine ics_request
              (fun _ => Ok (VObj timezone_and_event)) timezone_and_event)
    as (events & Hanswer & _ & Hlen).
  - reflexivity.
  - reflexivity.
  - repeat constructor; simpl; intuition discriminate.
  - simpl. intros ev [<-|[<-|[]]]; intros _; reflexivity.
  - exists events. split; [exact Hanswer | exact Hlen].
Defined.

(** C9 as stated fails: a document with one timezone component and one
    event component whose [start] the parser left as text is answered
    with the 500 of the handler, and no event at all. *)
Lemma fetch_ics_unparsed_start_no_event :
  List.length (filter kind_is_event (map snd timezone_and_unparsed_start)) = 1 /\
  exists details,
    run (fun _ => Ok (VObj timezone_and_unparsed_start))
        (@api_fetch_ics sample_engine ics_request) =
      {| answer := Some {| status := 500;
                           json := Error "Failed to fetch/parse ICS"
                                         (Some details) |};
         outbound := [ical_fromURL (VStr "https://example.org/feed.ics")];
         logged := 1 |}.
Proof. split; [reflexivity | eexists; reflexivity]. Defined.

(* ===================================================================== *)
(** ** Runs of the model *)
(* ===================================================================== *)

Example encodeURIComponent_query :
  encodeURIComponent "tech fest & expo/2024" = "tech%20fest%20%26%20expo%2F2024".
Proof. reflexivity. Qed.

Example eventbrite_id_123 :
  exists e, @eventbrite_event sample_engine eventbrite_123 = Ok e /\
            id e = VStr "eventbrite_123" /\
            org_type (organizer e) = VStr "company" /\
            verified (organizer e) = true /\
            org_name (organizer e) = VStr "Eventbrite".
Proof. eexists. repeat split. Qed.

Example eventbrite_null_record_throws :
  exists e, @eventbrite_event sample_engine VNull = Throw e.
Proof. eexists. reflexivity. Qed.

Example gcal_organizer_email :
  exists e,
    @gcal_event sample_engine
      (VObj [("id", VStr "abc");
             ("start", VObj [("date", VStr "2024-05-01")]);
             ("organizer", VObj [("email", VStr "office@college.example")])])
    = Ok e /\
    id e = VStr "gcal_abc" /\
    start e = VStr "2024-05-01" /\
    org_name (organizer e) = VStr "office@college.example" /\
    verified (organizer e) = false.
Proof. eexists. repeat split. Qed.

Example eventbrite_upstream_down :
  run no_upstream
    (@api_eventbrite sample_engine
       (startup (fun k => if String.eqb k "EVENTBRITE_TOKEN"
                          then Some "secret" else None))
       {| query := [("q", VStr "fest")] |}) =
  {| answer := Some {| status := 500;
                       json := Error "Eventbrite fetch failed"
                                     (Some (VStr "network unreachable")) |};
     outbound :=
       [fetch "https://www.eventbriteapi.com/v3/events/search/?q=fest&expand=venue,organizer&page=1"
              [("Authorization", "Bearer secret")]];
     logged := 1 |}.
Proof. reflexivity. Qed.

Example fetch_ics_answers_one_event :
  exists e,
    answer (run (fun _ => Ok (VObj timezone_and_event))
              (@api_fetch_ics sample_engine ics_request)) =
      Some {| status := 200; json := Events [e] |} /\
    id e = VStr "ics_uid-1" /\ title e = VStr "Open day" /\
    end_ e = VStr "" /\ org_name (organizer e) = VStr "ICS".
Proof. eexists. repeat split. Qed.

Example eventbrite_id_hiding_toString_throws :
  @eventbrite_event sample_engine
    (VObj [("id", VObj [("toString", one)])]) = Throw (TypeError NoPrimitive).
Proof. reflexivity. Qed.

Example eventbrite_record_without_text_500 :
  exists details,
    run (fun _ => Ok (VObj [("events",
                             VArr [VObj [("id", VObj [("toString", one)])]])]))
        (@api_eventbrite sample_engine (startup token_env)
           eventbrite_request) =
    {| answer := Some {| status := 500;
                         json := Error "Eventbrite fetch failed"
                                       (Some details) |};
       outbound := [eventbrite_call];
       logged := 1 |}.
Proof. eexists. reflexivity. Qed.

Example ics_uid_hiding_toString_500 :
  exists details,
    answer (run (fun _ => Ok (VObj [("k", VObj [("type", VStr "VEVENT");
                                    ("uid", VObj [("toString", VStr "x")])])]))
              (@api_fetch_ics sample_engine ics_request)) =
    Some {| status := 500;
            json := Error "Failed to fetch/parse ICS" (Some details) |}.
Proof. eexists. reflexivity. Qed.

Example eventbrite_query_without_text_rejects :
  run no_upstream
    (@api_eventbrite sample_engine (startup token_env)
       {| query := [("q", VObj [("toString", VStr "x")])] |}) =
  {| answer := None; outbound := []; logged := 0 |}.
Proof. reflexivity. Qed.

Example google_calendar_id_without_text_rejects :
  run no_upstream
    (@api_google_calendar sample_engine (startup token_env)
       {| query := [("calendarId", VObj [("toString", VStr "x")])] |}) =
  {| answer := None; outbound := []; logged := 0 |}.
Proof. reflexivity. Qed.

(* ===================================================================== *)
(** ** Further properties of the normaliser *)
(* ===================================================================== *)

Lemma or_truthy_or_default v d : truthy (or v d) = true \/ or v d = d.
Proof. unfold or. destruct (truthy v) eqn:Hv; auto. Qed.

Lemma truthy_or_lit v d : truthy d = true -> truthy (or v d) = true.
Proof. unfold or. destruct (truthy v) eqn:Hv; auto. Qed.

Lemma falsy_no_props v : truthy v = false -> own_props v = [].
Proof.
  destruct v as [| |b|n|s|t|l|p]; try reflexivity; try discriminate.
  destruct s; [reflexivity | discriminate].
Qed.

Lemma get_falsy v k : truthy v = false -> get v k = VUndefined.
Proof. intros H. unfold get. now rewrite (falsy_no_props _ H). Qed.

Lemma opt_member_get v k : opt_member v k = get v k.
Proof.
  unfold opt_member. destruct (nullish v) eqn:Hv; [|reflexivity].
  symmetry. apply get_falsy. destruct v; simpl in *; congruence.
Qed.

(** X1. In every normalised event the organizer is verified exactly when
    the organizer type that the event itself carries is "government" or
    "company": the two output fields never disagree. *)
Theorem verified_iff_org_type (arg : value) (e : CanonicalEvent) :
  normalizeEvent arg = Ok e ->
  (verified (organizer e) = true <->
   org_type (organizer e) = VStr "government" \/
   org_type (organizer e) = VStr "company").
Proof.
  intros H. apply normalizeEvent_Ok in H.
  destruct H as (_ & _ & _ & _ & _ & _ & _ & _ & Ht & Hv & _).
  rewrite Hv, Ht. clear Hv Ht.
  rewrite orb_true_iff. unfold strict_eq_str, or.
  destruct (get arg "organizerType") as [| |b|n|s|t|l|p];
    try (cbn; split; intros [?|?]; discriminate).
  - destruct b; cbn; split; intros [?|?]; discriminate.
  - destruct (truthy (VNum n)); split; intros [?|?]; discriminate.
  - destruct s as [|c s]; [cbn; split; intros [?|?]; discriminate|].
    cbn [truthy]. rewrite !String.eqb_eq.
    split; (intros [?|?]; [left | right]; congruence).
Qed.

(** X2. No text field of a normalised event is ever [undefined], [null] or
    another falsy value than the empty string, and the organizer name, the
    organizer type and the source name are never empty. *)
Theorem normalized_fields_never_missing (arg : value) (e : CanonicalEvent) :
  normalizeEvent arg = Ok e ->
  (truthy (title e) = true \/ title e = VStr "") /\
  (truthy (description e) = true \/ description e = VStr "") /\
  (truthy (start e) = true \/ start e = VStr "") /\
  (truthy (end_ e) = true \/ end_ e = VStr "") /\
  (truthy (venue e) = true \/ venue e = VStr "") /\
  truthy (org_name (organizer e)) = true /\
  truthy (org_type (organizer e)) = true /\
  truthy (src_name (source e)) = true.
Proof.
  intros H. apply normalizeEvent_Ok in H.
  destruct H as (_ & _ & -> & -> & -> & -> & -> & -> & -> & _ & ->).
  repeat split; auto using or_truthy_or_default, truthy_or_lit.
Qed.

(* ===================================================================== *)
(** ** Further properties of the three mappings *)
(* ===================================================================== *)

Lemma normalizeEvent_literal i t d s en v on ot sn e :
  normalizeEvent (VObj [
    ("id", i); ("title", t); ("description", d); ("start", s); ("end", en);
    ("venue", v); ("organizerName", on); ("organizerType", VStr ot);
    ("sourceName", VStr sn); ("external", VBool true) ]) = Ok e ->
  e = {| id := i;
         title := or t (VStr "");
         description := or d (VStr "");
         start := or s (VStr "");
         end_ := or en (VStr "");
         venue := or v (VStr "");
         organizer :=
           {| org_name := or (or on (VStr sn)) (VStr "Unknown");
              org_type := or (VStr ot) (VStr "other");
              verified := String.eqb ot "government" || String.eqb ot "company" |};
         source := {| src_name := or (VStr sn) (VStr "external") |};
         tags := [];
         external := VBool true;
         registration := {| open := true |} |}.
Proof. unfold normalizeEvent. cbn [nullish]. intros [= <-]. reflexivity. Qed.

Lemma or_or_lit a s : truthy (VStr s) = true -> forall d, or (or a (VStr s)) d = or a (VStr s).
Proof. intros Hs d. apply or_truthy. now apply truthy_or_lit. Qed.

Lemma or_chain_lit_truthy a b s :
  truthy (VStr s) = true -> truthy (or_chain [a; b; VStr s]) = true.
Proof.
  intros Hs. cbn [or_chain].
  destruct (truthy a) eqn:Ha; [exact Ha|].
  destruct (truthy b) eqn:Hb; [exact Hb | exact Hs].
Qed.

Lemma or_idem_default v d : or (or v d) d = or v d.
Proof. unfold or. destruct (truthy v) eqn:Hv; cbv iota; [now rewrite Hv|].
  now destruct (truthy d). Qed.

Section MoreMappings.
Context {engine : Engine}.

Lemma eventbrite_event_pure ev id_text :
  nullish ev = false ->
  to_string (get ev "id") = Ok id_text ->
  eventbrite_event ev =
  normalizeEvent (VObj [
    ("id", VStr ("eventbrite_" ++ id_text));
    ("title", get (get ev "name") "text");
    ("description", get (get ev "description") "text");
    ("start", or (get (get ev "start") "utc") (get (get ev "start") "local"));
    ("end", or (get (get ev "end") "utc") (get (get ev "end") "local"));
    ("venue", or (get (get (get ev "venue") "address")
                      "localized_address_display")
                 (get (get ev "venue") "name"));
    ("organizerName", get (get ev "organizer") "name");
    ("organizerType", VStr "company");
    ("sourceName", VStr "Eventbrite");
    ("external", VBool true) ]).
Proof.
  intros Hev Hid. unfold eventbrite_event, member_opt, member_opt_opt.
  rewrite !(member_not_nullish _ _ Hev). cbn [bind]. rewrite Hid. cbn [bind].
  rewrite !or_else_pure. cbn [bind]. rewrite !opt_member_get. reflexivity.
Qed.

Lemma gcal_side_pure it side :
  nullish it = false ->
  and_then (member it side)
    (or_else (member_member it side "dateTime") (member_member it side "date"))
  = Ok (or (get (get it side) "dateTime") (get (get it side) "date")) \/
  (truthy (get it side) = false /\
   and_then (member it side)
     (or_else (member_member it side "dateTime") (member_member it side "date"))
   = Ok (get it side)).
Proof.
  intros Hit. unfold and_then, member_member.
  rewrite !(member_not_nullish _ _ Hit). cbn [bind].
  destruct (truthy (get it side)) eqn:Hs; [left | right; auto].
  rewrite !(member_not_nullish _ _ (truthy_not_nullish _ Hs)).
  apply or_else_pure.
Qed.

Lemma gcal_side_value it side :
  nullish it = false ->
  exists v,
    and_then (member it side)
      (or_else (member_member it side "dateTime") (member_member it side "date"))
    = Ok v /\
    or v (VStr "") =
    or_chain [get (get it side) "dateTime"; get (get it side) "date"; VStr ""].
Proof.
  intros Hit. destruct (gcal_side_pure it side Hit) as [H | [Hs H]];
    rewrite H; eexists; (split; [reflexivity|]).
  - apply or_or_chain.
  - rewrite (or_falsy _ _ Hs). cbn [or_chain].
    now rewrite !(get_falsy _ _ Hs).
Qed.

Lemma gcal_organizer_value it :
  nullish it = false ->
  or_else (or_else (and_then (member it "organizer")
                             (member_member it "organizer" "displayName"))
                   (member_opt it "organizer" "email"))
          (Ok (VStr "Google Calendar"))
  = Ok (or_chain [get (get it "organizer") "displayName";
                  get (get it "organizer") "email";
                  VStr "Google Calendar"]).
Proof.
  intros Hit. unfold and_then, member_member, member_opt.
  rewrite !(member_not_nullish _ _ Hit). cbn [bind].
  rewrite opt_member_get.
  destruct (truthy (get it "organizer")) eqn:Ho.
  - rewrite (member_not_nullish _ _ (truthy_not_nullish _ Ho)).
    rewrite !or_else_pure. now rewrite or_or_chain.
  - rewrite !or_else_pure. rewrite (or_falsy _ _ Ho).
    now rewrite !(get_falsy _ _ Ho).
Qed.

Lemma gcal_event_pure it id_text :
  nullish it = false ->
  to_string (get it "id") = Ok id_text ->
  exists s en,
    or s (VStr "") =
      or_chain [get (get it "start") "dateTime"; get (get it "start") "date";
                VStr ""] /\
    or en (VStr "") =
      or_chain [get (get it "end") "dateTime"; get (get it "end") "date";
                VStr ""] /\
    gcal_event it =
    normalizeEvent (VObj [
      ("id", VStr ("gcal_" ++ id_text));
      ("title", get it "summary");
      ("description", or (get it "description") (VStr ""));
      ("start", s);
      ("end", en);
      ("venue", or (get it "location") (VStr ""));
      ("organizerName",
         or_chain [get (get it "organizer") "displayName";
                   get (get it "organizer") "email";
                   VStr "Google Calendar"]);
      ("organizerType", VStr "other");
      ("sourceName", VStr "Google Calendar");
      ("external", VBool true) ]).
Proof.
  intros Hit Hid.
  destruct (gcal_side_value it "start" Hit) as (s & Hs & Hs').
  destruct (gcal_side_value it "end" Hit) as (en & Hen & Hen').
  exists s, en. split; [exact Hs'|]. split; [exact Hen'|].
  unfold gcal_event. rewrite Hs, Hen, (gcal_organizer_value it Hit).
  rewrite !(member_not_nullish _ _ Hit), !or_else_pure. cbn [bind].
  rewrite Hid. reflexivity.
Qed.

Lemma eventbrite_event_Ok_iff raw :
  (exists e, eventbrite_event raw = Ok e) <->
  nullish raw = false /\ stringable (get raw "id") = true.
Proof.
  split.
  - intros (e & H). apply eventbrite_event_Ok in H.
    destruct H as (Hraw & (s & Hs & _) & _). split; [exact Hraw|].
    apply to_string_Ok_iff. eauto.
  - intros [Hraw Hid]. apply to_string_Ok_iff in Hid.
    destruct Hid as (s & Hs).
    rewrite (eventbrite_event_pure raw s Hraw Hs). eexists. reflexivity.
Qed.

Lemma gcal_event_Ok_iff raw :
  (exists e, gcal_event raw = Ok e) <->
  nullish raw = false /\ stringable (get raw "id") = true.
Proof.
  split.
  - intros (e & H). apply gcal_event_Ok in H.
    destruct H as (Hraw & s & Hs & _). split; [exact Hraw|].
    apply to_string_Ok_iff. eauto.
  - intros [Hraw Hid]. apply to_string_Ok_iff in Hid.
    destruct Hid as (s & Hs).
    destruct (gcal_event_pure raw s Hraw Hs) as (st & en & _ & _ & ->).
    eexists. reflexivity.
Qed.

(** X3. The mapping of an Eventbrite record and the mapping of a calendar
    item fail exactly on a record that is [null] or [undefined], or whose
    [id] has no text (an object with a [toString] of its own, or an array
    holding one): whatever other fields a record lacks, it is mapped. *)
Theorem raw_record_mapped_iff (raw : value) :
  ((exists e, eventbrite_event raw = Ok e) <->
   nullish raw = false /\ stringable (get raw "id") = true) /\
  ((exists e, gcal_event raw = Ok e) <->
   nullish raw = false /\ stringable (get raw "id") = true) /\
  (forall props, get raw "id" = VObj props -> owns props "toString" = true ->
     (exists err, eventbrite_event raw = Throw err) /\
     (exists err, gcal_event raw = Throw err)).
Proof.
  split; [apply eventbrite_event_Ok_iff|].
  split; [apply gcal_event_Ok_iff|].
  intros props Hid Hown.
  assert (Hno : stringable (get raw "id") = false)
    by (rewrite Hid; cbn [stringable]; now rewrite Hown).
  split.
  - destruct (eventbrite_event raw) as [e|err] eqn:H; [|eauto].
    assert (Hex : exists e, eventbrite_event raw = Ok e) by eauto.
    apply eventbrite_event_Ok_iff in Hex. destruct Hex. congruence.
  - destruct (gcal_event raw) as [e|err] eqn:H; [|eauto].
    assert (Hex : exists e, gcal_event raw = Ok e) by eauto.
    apply gcal_event_Ok_iff in Hex. destruct Hex. congruence.
Qed.

(** X4. Every event made from an Eventbrite record has organizer type
    "company", is verified, external, and of source "Eventbrite"; its
    organizer name is the record's organizer name, or "Eventbrite" when the
    record has none; its venue is the displayed address, else the venue
    name, else the empty string. *)
Theorem eventbrite_event_attributes (ev : value) (e : CanonicalEvent) :
  eventbrite_event ev = Ok e ->
  org_type (organizer e) = VStr "company" /\
  verified (organizer e) = true /\
  src_name (source e) = VStr "Eventbrite" /\
  external e = VBool true /\
  org_name (organizer e) =
    or (get (get ev "organizer") "name") (VStr "Eventbrite") /\
  title e = or (get (get ev "name") "text") (VStr "") /\
  description e = or (get (get ev "description") "text") (VStr "") /\
  venue e = or_chain [get (get (get ev "venue") "address")
                          "localized_address_display";
                      get (get ev "venue") "name"; VStr ""].
Proof.
  intros H. pose proof (eventbrite_event_Ok _ _ H) as (Hev & (s & Hs & _) & _).
  rewrite (eventbrite_event_pure ev s Hev Hs) in H.
  apply normalizeEvent_literal in H. subst e.
  cbn [org_type org_name verified organizer src_name source external title
       description venue].
  repeat split.
  - now apply or_or_lit.
  - apply or_or_chain.
Qed.

(** X5. The [start] (and likewise the [end]) of an event made from a
    calendar item is the item's timestamp with time when there is one,
    else its date-only value, else the empty string. *)
Theorem gcal_start_end_preference (it : value) (e : CanonicalEvent) :
  gcal_event it = Ok e ->
  start e = or_chain [get (get it "start") "dateTime";
                      get (get it "start") "date"; VStr ""] /\
  end_ e = or_chain [get (get it "end") "dateTime";
                     get (get it "end") "date"; VStr ""] /\
  (truthy (get (get it "start") "dateTime") = true ->
   start e = get (get it "start") "dateTime") /\
  (truthy (get (get it "start") "dateTime") = false ->
   truthy (get (get it "start") "date") = true ->
   start e = get (get it "start") "date") /\
  (~ has_key it "start" -> start e = VStr "").
Proof.
  intros H. pose proof (gcal_event_Ok _ _ H) as (Hit & sid & Hsid & _).
  destruct (gcal_event_pure it sid Hit Hsid) as (s & en & Hs & Hen & Heq).
  rewrite Heq in H. apply normalizeEvent_literal in H. subst e.
  cbn [start end_]. rewrite Hs, Hen. cbn [or_chain]. repeat split.
  - now intros ->.
  - now intros -> ->.
  - intros Habs. rewrite (get_absent _ _ Habs). reflexivity.
Qed.

(** X6. The organizer name of an event made from a calendar item is the
    organizer's display name, else the organizer's email, else "Google
    Calendar"; the event has organizer type "other", is never verified, is
    external and of source "Google Calendar". *)
Theorem gcal_event_attributes (it : value) (e : CanonicalEvent) :
  gcal_event it = Ok e ->
  org_name (organizer e) =
    or_chain [get (get it "organizer") "displayName";
              get (get it "organizer") "email"; VStr "Google Calendar"] /\
  org_type (organizer e) = VStr "other" /\
  verified (organizer e) = false /\
  src_name (source e) = VStr "Google Calendar" /\
  external e = VBool true /\
  title e = or (get it "summary") (VStr "") /\
  venue e = or (get it "location") (VStr "").
Proof.
  intros H. pose proof (gcal_event_Ok _ _ H) as (Hit & sid & Hsid & _).
  destruct (gcal_event_pure it sid Hit Hsid) as (s & en & _ & _ & Heq).
  rewrite Heq in H. apply normalizeEvent_literal in H. subst e.
  cbn [org_type org_name verified organizer src_name source external title
       venue].
  repeat split.
  - rewrite !or_truthy; auto using or_chain_lit_truthy.
    rewrite or_truthy; auto using or_chain_lit_truthy.
  - apply or_idem_default.
Qed.

End MoreMappings.

Ltac split_binds H :=
  repeat (apply bind_Ok in H; cbv beta in H;
          let x := fresh "x" in
          let Hx := fresh "Hx" in
          destruct H as (x & Hx & H)).

Lemma or_str_default s : or (VStr s) (VStr "") = VStr s.
Proof. now destruct s. Qed.

Lemma or_else_lit_Ok ev k d x :
  nullish ev = false ->
  or_else (member ev k) (Ok d) = Ok x -> x = or (get ev k) d.
Proof.
  intros Hev. rewrite (member_not_nullish _ _ Hev), or_else_pure. congruence.
Qed.

Section MoreIcs.
Context {engine : Engine}.

Lemma iso_or_empty_value ev k v :
  nullish ev = false -> iso_or_empty ev k = Ok v ->
  date_ok (get ev k) = true /\
  ((exists t, get ev k = VDate (Some t) /\ v = VStr (date_toISOString t)) \/
   (truthy (get ev k) = false /\ v = VStr "")).
Proof.
  intros Hev. unfold iso_or_empty, date_ok.
  rewrite !(member_not_nullish _ _ Hev). cbn [bind].
  destruct (truthy (get ev k)) eqn:Hd.
  - destruct (get ev k) as [| |b|n|s|[t|]|l|p]; cbn; try discriminate.
    intros [= <-]. split; [reflexivity|]. left. eauto.
  - intros [= <-]. split; [reflexivity|]. right. auto.
Qed.

Lemma ics_event_Ok_mappable ev e :
  ics_event ev = Ok e -> ics_mappable ev = true.
Proof.
  intros H. pose proof (ics_event_Ok _ _ H) as (Hev & s & Hs & _).
  unfold ics_mappable. apply andb_true_iff. split.
  - unfold ics_event in H. split_binds H.
    unfold dates_ok. apply andb_true_iff. split.
    + eapply iso_or_empty_value; eauto.
    + eapply iso_or_empty_value; eauto.
  - apply to_string_Ok_iff. eauto.
Qed.

(** X7. The mapping of a calendar-document component fails exactly when
    the component is [null] or [undefined], or its [start] or its [end] is
    a truthy value other than a valid date, or what its identifier is cut
    from ([uid], else [summary]) has no text. *)
Theorem ics_event_mapped_iff (ev : value) :
  (exists e, ics_event ev = Ok e) <->
  nullish ev = false /\ dates_ok ev = true /\
  stringable (ics_id_source ev) = true.
Proof.
  split.
  - intros (e & H). split.
    + now apply ics_event_Ok in H.
    + apply ics_event_Ok_mappable in H. now apply andb_true_iff in H.
  - intros (Hev & Hd & Hs). apply ics_event_total; [exact Hev|].
    unfold ics_mappable. now rewrite Hd, Hs.
Qed.

(** X8. An event made from a calendar-document component has for [start]
    (and likewise [end]) the ISO rendering of the component's date, or the
    empty string when the component has none; its organizer name is the
    component's organizer, or "ICS" when it has none; it has organizer
    type "other", is never verified, is external and of source "ICS". *)
Theorem ics_event_attributes (ev : value) (e : CanonicalEvent) :
  ics_event ev = Ok e ->
  (forall t, get ev "start" = VDate (Some t) ->
             start e = VStr (date_toISOString t)) /\
  (truthy (get ev "start") = false -> start e = VStr "") /\
  (forall t, get ev "end" = VDate (Some t) ->
             end_ e = VStr (date_toISOString t)) /\
  (truthy (get ev "end") = false -> end_ e = VStr "") /\
  org_name (organizer e) = or (get ev "organizer") (VStr "ICS") /\
  org_type (organizer e) = VStr "other" /\
  verified (organizer e) = false /\
  src_name (source e) = VStr "ICS" /\
  external e = VBool true /\
  title e = or (get ev "summary") (VStr "") /\
  description e = or (get ev "description") (VStr "") /\
  venue e = or (get ev "location") (VStr "").
Proof.
  intros H. pose proof (ics_event_Ok _ _ H) as (Hev & _).
  unfold ics_event in H. split_binds H.
  apply normalizeEvent_literal in H. subst e.
  apply (or_else_lit_Ok _ _ _ _ Hev) in Hx1, Hx2, Hx5, Hx6. subst.
  apply (iso_or_empty_value _ _ _ Hev) in Hx3, Hx4.
  destruct Hx3 as (_ & Hs), Hx4 as (_ & He).
  cbn [org_type org_name verified organizer src_name source external title
       description venue start end_].
  rewrite !or_idem_default.
  assert (Hside : forall k y,
            ((exists t, get ev k = VDate (Some t) /\
                        y = VStr (date_toISOString t)) \/
             (truthy (get ev k) = false /\ y = VStr "")) ->
            (forall t, get ev k = VDate (Some t) ->
                       or y (VStr "") = VStr (date_toISOString t)) /\
            (truthy (get ev k) = false -> or y (VStr "") = VStr "")).
  { intros k y [(t & Hk & ->) | (Hk & ->)]; split.
    - intros t' Hk'. rewrite Hk in Hk'. injection Hk' as <-.
      apply or_str_default.
    - rewrite Hk. discriminate.
    - intros t Hk'. rewrite Hk' in Hk. discriminate.
    - reflexivity. }
  destruct (Hside _ _ Hs) as [Hs1 Hs2]. destruct (Hside _ _ He) as [He1 He2].
  repeat split; auto.
  unfold or.
  destruct (truthy (get ev "organizer")) eqn:Ho; cbv iota;
    [now rewrite !Ho | reflexivity].
Qed.

(** X9. The [id] of an event made from a calendar-document component is a
    string of at least 4 and at most 44 characters. *)
Theorem ics_id_length (ev : value) (e : CanonicalEvent) :
  ics_event ev = Ok e ->
  exists s, id e = VStr s /\ 4 <= String.length s <= 44.
Proof.
  intros H. apply ics_event_Ok in H. destruct H as (_ & s & _ & ->).
  eexists. split; [reflexivity|].
  cbn [append String.length]. rewrite substring_0_length. lia.
Qed.

End MoreIcs.

(* ===================================================================== *)
(** ** Further properties of the endpoints *)
(* ===================================================================== *)

Lemma mapM_Ok_iff {A B} (f : A -> result B) l bs :
  mapM f l = Ok bs <-> Forall2 (fun a b => f a = Ok b) l bs.
Proof.
  revert bs. induction l as [|a l IH]; intros bs; cbn [mapM].
  - split; [intros [= <-]; constructor | intros H; now inversion H].
  - destruct (f a) as [b|e] eqn:Hfa.
    + destruct (mapM f l) as [bs'|e] eqn:Hl.
      * split.
        -- intros [= <-]. constructor; [exact Hfa | now apply IH].
        -- intros H. inversion H as [|? b' ? bs'' Hb Hrest]; subst.
           apply IH in Hrest. congruence.
      * split; [discriminate|].
        intros H. inversion H as [|? b' ? bs'' Hb Hrest]; subst.
        apply IH in Hrest. discriminate.
    + split; [discriminate|].
      intros H. inversion H; subst. congruence.
Qed.

Lemma mapM_total {A B} (f : A -> result B) l :
  Forall (fun a => exists b, f a = Ok b) l -> exists bs, mapM f l = Ok bs.
Proof.
  induction 1 as [|a l (b & Hb) _ (bs & Hbs)]; cbn [mapM]; [eauto|].
  rewrite Hb, Hbs. eauto.
Qed.

Lemma array_map_Ok callee f v evs :
  array_map callee f v = Ok evs <->
  exists elems, v = VArr elems /\
                Forall2 (fun raw e => f raw = Ok e) elems evs.
Proof.
  split.
  - destruct v; try discriminate. cbn [array_map]. intros H.
    apply mapM_Ok_iff in H. eauto.
  - intros (elems & -> & H). now apply mapM_Ok_iff.
Qed.

Lemma Forall2_Forall_left {A B} (R : A -> B -> Prop) (P : A -> Prop) l l' :
  (forall a b, R a b -> P a) -> Forall2 R l l' -> Forall P l.
Proof. intros HR. induction 1; constructor; eauto. Qed.

Lemma all_chars_app p s1 s2 :
  all_chars p (s1 ++ s2) = all_chars p s1 && all_chars p s2.
Proof.
  induction s1 as [|c s1 IH]; cbn [append all_chars]; [reflexivity|].
  now rewrite IH, andb_assoc.
Qed.

Lemma encodeURIComponent_safe s :
  all_chars uri_safe (encodeURIComponent s) = true.
Proof.
  induction s as [|c s IH]; [reflexivity|].
  cbn [encodeURIComponent]. rewrite all_chars_app, IH, andb_true_r.
  destruct c as [[] [] [] [] [] [] [] []]; reflexivity.
Qed.

Ltac single_call H c :=
  apply (f_equal (hd c)) in H; cbn [hd] in H; subst c.

Ltac case_try :=
  match goal with
  | |- context [match ?r with Ok _ => _ | Throw _ => _ end] => destruct r
  end.

Section MoreEndpoints.
Context {engine : Engine}.

(** Every handler is a guard that answers at once with a bare error, or a
    throw while the URL is built, or one outbound call followed by the try
    block and its catch. *)
Lemma handle_shape ep cfg req :
  (exists st msg,
     handle ep cfg req = Return {| status := st; json := Error msg None |} /\
     (st = 400 \/ st = 500)) \/
  (exists err, handle ep cfg req = Reject err) \/
  (exists c lbl (body : result value -> result (list CanonicalEvent)),
     handle ep cfg req =
       Await c (fun settled =>
         match body settled with
         | Ok events => Return {| status := 200; json := Events events |}
         | Throw err =>
             ConsoleError lbl err
               (Return {| status := 500;
                          json := Error (fetch_failed ep)
                                        (Some (err_message err)) |})
         end) /\
     forall err, body (Throw err) = Throw err).
Proof.
  destruct ep; cbn [handle fetch_failed].
  - unfold api_eventbrite.
    destruct (truthy (VStr (EVENTBRITE_TOKEN cfg))); cbn [negb].
    + right. case_try.
      * right. do 2 eexists.
        exists (fun settled => bind settled (fun json =>
                  bind (member json "events") (fun evs =>
                    array_map "(json.events || []).map" eventbrite_event
                              (or evs (VArr []))))).
        split; reflexivity.
      * left. eauto.
    + left. do 2 eexists. split; [reflexivity | now right].
  - unfold api_google_calendar.
    destruct (truthy (assoc "calendarId" (query req))); cbn [negb].
    + destruct (truthy (VStr (GOOGLE_API_KEY cfg))); cbn [negb].
      * right. case_try.
        -- right. do 2 eexists.
           exists (fun settled => bind settled (fun json =>
                     bind (member json "items") (fun items =>
                       array_map "(json.items || []).map" gcal_event
                                 (or items (VArr []))))).
           split; reflexivity.
        -- left. eauto.
      * left. do 2 eexists. split; [reflexivity | now right].
    + left. do 2 eexists. split; [reflexivity | now left].
  - unfold api_fetch_ics. destruct (truthy (assoc "url" (query req)));
      cbn [negb].
    + right. right. do 2 eexists.
      exists (fun settled => bind settled (fun parsed =>
                bind (keys parsed) (fun ks => ics_loop parsed ks []))).
      split; reflexivity.
    + left. do 2 eexists. split; [reflexivity | now left].
Qed.

(** X10. Whatever the request and whatever the outside world does, a
    handler makes at most one outbound call; it makes none exactly when it
    answers with a bare error (a missing parameter or a missing
    credential) or throws before its try block and sends no answer; and
    it makes one whenever it answers 200. *)
Theorem at_most_one_outbound_call (ep : endpoint) (cfg : config)
    (req : request) (world : call -> result value) :
  List.length (outbound (run world (handle ep cfg req))) <= 1 /\
  (outbound (run world (handle ep cfg req)) = [] <->
   answer (run world (handle ep cfg req)) = None \/
   exists st msg,
     answer (run world (handle ep cfg req)) =
       Some {| status := st; json := Error msg None |}) /\
  (option_map status (answer (run world (handle ep cfg req))) = Some 200 ->
   List.length (outbound (run world (handle ep cfg req))) = 1).
Proof.
  destruct (handle_shape ep cfg req)
    as [(st & msg & -> & Hst) | [(err & ->) | (c & lbl & body & -> & _)]];
    cbn [run].
  - cbn. repeat split; eauto. destruct Hst; subst; discriminate.
  - cbn. repeat split; eauto. discriminate.
  - destruct (body (world c)); cbn; repeat split; auto; try discriminate;
      intros [H | (st & msg & H)]; discriminate.
Qed.

(** X11. Every answer of a handler is one of three: 200 with a list of
    events and nothing written to the console; 400 or 500 with a bare error
    message, nothing written and nothing sent out; or 500 with the error
    text of the catch block and the message of what was thrown as details,
    after one line written to the console.  An answer never carries both
    events and an error.  When there is no answer, the handler has thrown
    before its try block: nothing was sent out and nothing written. *)
Theorem answer_shapes (ep : endpoint) (cfg : config) (req : request)
    (world : call -> result value) :
  (exists events,
     answer (run world (handle ep cfg req)) =
       Some {| status := 200; json := Events events |} /\
     logged (run world (handle ep cfg req)) = 0) \/
  (exists st msg,
     (st = 400 \/ st = 500) /\
     run world (handle ep cfg req) =
       {| answer := Some {| status := st; json := Error msg None |};
          outbound := []; logged := 0 |}) \/
  (exists err,
     answer (run world (handle ep cfg req)) =
       Some {| status := 500;
               json := Error (fetch_failed ep) (Some (err_message err)) |} /\
     logged (run world (handle ep cfg req)) = 1) \/
  run world (handle ep cfg req) =
    {| answer := None; outbound := []; logged := 0 |}.
Proof.
  destruct (handle_shape ep cfg req)
    as [(st & msg & -> & Hst) | [(err & ->) | (c & lbl & body & -> & _)]];
    cbn [run].
  - right. left. exists st, msg. split; [exact Hst | reflexivity].
  - right. right. right. reflexivity.
  - destruct (body (world c)) as [events|err]; cbn.
    + left. eauto.
    + right. right. left. eauto.
Qed.

(** X12. When the outbound call of a handler fails, the answer is the 500
    of that handler's catch block, with the message of the failure as
    details, and one line is written to the console. *)
Theorem upstream_failure_500 (ep : endpoint) (cfg : config) (req : request)
    (world : call -> result value) (c : call) (err : exn) :
  outbound (run world (handle ep cfg req)) = [c] ->
  world c = Throw err ->
  answer (run world (handle ep cfg req)) =
    Some {| status := 500;
            json := Error (fetch_failed ep) (Some (err_message err)) |} /\
  logged (run world (handle ep cfg req)) = 1.
Proof.
  destruct (handle_shape ep cfg req)
    as [(st & msg & -> & Hst) | [(e & ->) | (c' & lbl & body & -> & Hbody)]];
    cbn [run].
  - discriminate.
  - discriminate.
  - cbn [outbound]. intros [= -> _] Hw. rewrite Hw, Hbody. split; reflexivity.
Qed.

Lemma run_api_eventbrite cfg req world c :
  outbound (run world (api_eventbrite cfg req)) = [c] ->
  EVENTBRITE_TOKEN cfg <> "" /\
  exists q_text page_text,
    to_string (or (assoc "q" (query req)) (VStr "")) = Ok q_text /\
    to_string (or (assoc "page" (query req)) one) = Ok page_text /\
    c = fetch ("https://www.eventbriteapi.com/v3/events/search/?q="
               ++ encodeURIComponent q_text
               ++ "&expand=venue,organizer&page=" ++ page_text)
              [("Authorization", "Bearer " ++ EVENTBRITE_TOKEN cfg)] /\
    answer (run world (api_eventbrite cfg req)) =
      match (json <- world c ;;
             evs <- member json "events" ;;
             array_map "(json.events || []).map" eventbrite_event
                       (or evs (VArr [])))%js with
      | Ok events => Some {| status := 200; json := Events events |}
      | Throw err => Some {| status := 500;
                             json := Error "Eventbrite fetch failed"
                                           (Some (err_message err)) |}
      end.
Proof.
  unfold api_eventbrite.
  destruct (truthy (VStr (EVENTBRITE_TOKEN cfg))) eqn:Htok; cbn [negb];
    [|discriminate].
  destruct (to_string (or (assoc "q" (query req)) (VStr ""))) as [q_text|];
    cbn [bind]; [|discriminate].
  destruct (to_string (or (assoc "page" (query req)) one)) as [page_text|];
    cbn [bind]; [|discriminate].
  cbn [run outbound answer]. intros H. single_call H c.
  split; [now apply truthy_str|]. exists q_text, page_text.
  do 3 (split; [reflexivity|]). case_try; reflexivity.
Qed.

Lemma run_api_google_calendar cfg req world c :
  outbound (run world (api_google_calendar cfg req)) = [c] ->
  truthy (assoc "calendarId" (query req)) = true /\
  GOOGLE_API_KEY cfg <> "" /\
  exists id_text,
    to_string (assoc "calendarId" (query req)) = Ok id_text /\
    c = fetch ("https://www.googleapis.com/calendar/v3/calendars/"
               ++ encodeURIComponent id_text
               ++ "/events?key=" ++ GOOGLE_API_KEY cfg
               ++ "&singleEvents=true&orderBy=startTime") [] /\
    answer (run world (api_google_calendar cfg req)) =
      match (json <- world c ;;
             items <- member json "items" ;;
             array_map "(json.items || []).map" gcal_event
                       (or items (VArr [])))%js with
      | Ok events => Some {| status := 200; json := Events events |}
      | Throw err => Some {| status := 500;
                             json := Error "Google Calendar fetch failed"
                                           (Some (err_message err)) |}
      end.
Proof.
  unfold api_google_calendar.
  destruct (truthy (assoc "calendarId" (query req))); cbn [negb];
    [|discriminate].
  destruct (truthy (VStr (GOOGLE_API_KEY cfg))) eqn:Hkey; cbn [negb];
    [|discriminate].
  destruct (to_string (assoc "calendarId" (query req))) as [id_text|];
    cbn [bind]; [|discriminate].
  cbn [run outbound answer]. intros H. single_call H c.
  split; [reflexivity|]. split; [now apply truthy_str|]. exists id_text.
  do 2 (split; [reflexivity|]). case_try; reflexivity.
Qed.

Lemma run_api_fetch_ics req world c :
  outbound (run world (api_fetch_ics req)) = [c] ->
  truthy (assoc "url" (query req)) = true /\
  c = ical_fromURL (assoc "url" (query req)) /\
  answer (run world (api_fetch_ics req)) =
    match (parsed <- world c ;;
           ks <- keys parsed ;;
           ics_loop parsed ks [])%js with
    | Ok events => Some {| status := 200; json := Events events |}
    | Throw err => Some {| status := 500;
                           json := Error "Failed to fetch/parse ICS"
                                         (Some (err_message err)) |}
    end.
Proof.
  unfold api_fetch_ics.
  destruct (truthy (assoc "url" (query req))); cbn [negb]; [|discriminate].
  cbn [run outbound answer]. intros H. single_call H c.
  do 2 (split; [reflexivity|]). case_try; reflexivity.
Qed.

Lemma records_answer callee (f : value -> result CanonicalEvent)
    (P : value -> Prop) msg v :
  (forall raw, (exists e, f raw = Ok e) <-> P raw) ->
  let a := match array_map callee f v with
           | Ok events => Some {| status := 200; json := Events events |}
           | Throw err => Some {| status := 500;
                                  json := Error msg (Some (err_message err)) |}
           end in
  (forall events,
     a = Some {| status := 200; json := Events events |} <->
     exists elems, v = VArr elems /\
                   Forall2 (fun raw e => f raw = Ok e) elems events) /\
  (option_map status a = Some 200 <->
   exists elems, v = VArr elems /\ Forall P elems) /\
  (option_map status a = Some 200 \/
   exists details,
     a = Some {| status := 500; json := Error msg (Some details) |}).
Proof.
  intros Hf a. subst a. destruct (array_map callee f v) as [evs|err] eqn:Ha.
  - apply array_map_Ok in Ha. destruct Ha as (elems & -> & Hall).
    split; [|split; [|now left]].
    + intros events. split.
      * intros [= <-]. eauto.
      * intros (elems' & [= <-] & Hall'). apply mapM_Ok_iff in Hall, Hall'.
        congruence.
    + split; [intros _ | intros _; reflexivity].
      exists elems. split; [reflexivity|].
      eapply Forall2_Forall_left; [|exact Hall].
      intros raw e He. apply (proj1 (Hf raw)). exists e. exact He.
  - assert (Hno : forall elems, v = VArr elems ->
                    ~ exists events, Forall2 (fun raw e => f raw = Ok e)
                                             elems events).
    { intros elems -> (events & Hall). apply mapM_Ok_iff in Hall.
      cbn [array_map] in Ha. congruence. }
    split; [|split; [|right; eauto]].
    + intros events. split; [discriminate|].
      intros (elems & Hv & Hall). exfalso. eapply Hno; eauto.
    + cbn. split; [discriminate|]. intros (elems & Hv & Hall). exfalso.
      destruct (mapM_total f elems) as (bs & Hbs).
      { eapply Forall_impl; [|exact Hall].
        intros raw Hraw. exact (proj2 (Hf raw) Hraw). }
      apply mapM_Ok_iff in Hbs. eapply Hno; eauto.
Qed.

(** X13. When the Eventbrite search answers with a body that is not
    [null], the endpoint answers 200 exactly when the body's [events] is
    missing (then there are no events) or an array each of whose records
    is neither [null] nor [undefined] and has an [id] with a text; the
    events of a 200 answer are exactly the records mapped one by one, in
    the order of the array.  Otherwise the whole answer is the 500 of the
    catch block, never a partial list. *)
Theorem eventbrite_one_event_per_record (cfg : config) (req : request)
    (world : call -> result value) (c : call) (body : value) :
  outbound (run world (api_eventbrite cfg req)) = [c] ->
  world c = Ok body ->
  nullish body = false ->
  (forall events,
     answer (run world (api_eventbrite cfg req)) =
       Some {| status := 200; json := Events events |} <->
     exists elems, or (get body "events") (VArr []) = VArr elems /\
                   Forall2 (fun raw e => eventbrite_event raw = Ok e)
                           elems events) /\
  (option_map status (answer (run world (api_eventbrite cfg req))) = Some 200
   <->
   exists elems, or (get body "events") (VArr []) = VArr elems /\
                 Forall (fun raw => nullish raw = false /\
                                    stringable (get raw "id") = true) elems) /\
  (option_map status (answer (run world (api_eventbrite cfg req))) = Some 200
   \/
   exists details,
     answer (run world (api_eventbrite cfg req)) =
       Some {| status := 500;
               json := Error "Eventbrite fetch failed" (Some details) |}).
Proof.
  intros Hout Hw Hb. apply (run_api_eventbrite _ _ world) in Hout.
  destruct Hout as (_ & q_text & page_text & _ & _ & _ & ->).
  rewrite Hw. cbn [bind]. rewrite (member_not_nullish _ _ Hb). cbn [bind].
  apply (records_answer _ _
           (fun raw => nullish raw = false /\ stringable (get raw "id") = true)).
  apply eventbrite_event_Ok_iff.
Qed.

(** X14. When the calendar API answers with a body that is not [null],
    the endpoint answers 200 exactly when the body's [items] is missing or
    an array each of whose items is neither [null] nor [undefined] and has
    an [id] with a text; the events of a 200 answer are exactly the items
    mapped one by one, in the order of the array.  Otherwise the whole
    answer is the 500 of the catch block. *)
Theorem google_calendar_one_event_per_item (cfg : config) (req : request)
    (world : call -> result value) (c : call) (body : value) :
  outbound (run world (api_google_calendar cfg req)) = [c] ->
  world c = Ok body ->
  nullish body = false ->
  (forall events,
     answer (run world (api_google_calendar cfg req)) =
       Some {| status := 200; json := Events events |} <->
     exists elems, or (get body "items") (VArr []) = VArr elems /\
                   Forall2 (fun raw e => gcal_event raw = Ok e)
                           elems events) /\
  (option_map status (answer (run world (api_google_calendar cfg req)))
   = Some 200 <->
   exists elems, or (get body "items") (VArr []) = VArr elems /\
                 Forall (fun raw => nullish raw = false /\
                                    stringable (get raw "id") = true) elems) /\
  (option_map status (answer (run world (api_google_calendar cfg req)))
   = Some 200 \/
   exists details,
     answer (run world (api_google_calendar cfg req)) =
       Some {| status := 500;
               json := Error "Google Calendar fetch failed" (Some details) |}).
Proof.
  intros Hout Hw Hb. apply (run_api_google_calendar _ _ world) in Hout.
  destruct Hout as (_ & _ & id_text & _ & _ & ->).
  rewrite Hw. cbn [bind]. rewrite (member_not_nullish _ _ Hb). cbn [bind].
  apply (records_answer _ _
           (fun raw => nullish raw = false /\ stringable (get raw "id") = true)).
  apply gcal_event_Ok_iff.
Qed.

Lemma ics_loop_Ok_mappable props ks acc evs :
  ics_loop (VObj props) ks acc = Ok evs ->
  forall k, In k ks -> kind_is_event (assoc k props) = true ->
            ics_mappable (assoc k props) = true.
Proof.
  revert acc. induction ks as [|k ks IH]; intros acc H k' Hin; [destruct Hin|].
  cbn [ics_loop] in H. cbn [member nullish bind] in H. rewrite get_obj in H.
  rewrite is_vevent_kind in H. cbn [bind] in H.
  destruct (kind_is_event (assoc k props)) eqn:Hk.
  - apply bind_Ok in H. destruct H as (e & He & H).
    destruct Hin as [<-|Hin].
    + intros _. now apply ics_event_Ok_mappable in He.
    + eapply IH; eauto.
  - destruct Hin as [<-|Hin]; [congruence | eapply IH; eauto].
Qed.

(** X15. When the calendar document is fetched and parsed into an object,
    the endpoint answers 200 exactly when every event component of the
    document has for [start] and for [end] nothing to render or a valid
    date, and for [uid] (else [summary]) a value that has a text; a single
    event component that cannot be made an event of turns the whole answer
    into the 500, with no event. *)
Theorem fetch_ics_200_iff_mappable (req : request)
    (world : call -> result value) (c : call) (props : list (string * value)) :
  outbound (run world (api_fetch_ics req)) = [c] ->
  world c = Ok (VObj props) ->
  NoDup (map fst props) ->
  (option_map status (answer (run world (api_fetch_ics req))) = Some 200 <->
   forall ev, In ev (map snd props) -> kind_is_event ev = true ->
              dates_ok ev = true /\ stringable (ics_id_source ev) = true) /\
  (option_map status (answer (run world (api_fetch_ics req))) = Some 200 \/
   exists details,
     answer (run world (api_fetch_ics req)) =
       Some {| status := 500;
               json := Error "Failed to fetch/parse ICS" (Some details) |}).
Proof.
  intros Hout Hw Hnd. apply (run_api_fetch_ics _ world) in Hout.
  destruct Hout as (_ & _ & ->). rewrite Hw.
  cbn [bind keys nullish own_props].
  destruct (ics_loop (VObj props) (map fst props) []) as [evs|err] eqn:Hloop;
    cbn [option_map status].
  - split; [|now left]. split; [intros _ | intros _; reflexivity].
    intros ev Hin Hkind. rewrite <- (assoc_keys props Hnd) in Hin.
    apply in_map_iff in Hin. destruct Hin as (k & <- & Hk).
    apply andb_true_iff.
    exact (ics_loop_Ok_mappable _ _ _ _ Hloop k Hk Hkind).
  - split; [|right; eauto]. split; [discriminate|]. intros Hok. exfalso.
    destruct (ics_loop_events props (map fst props) []) as (evs & Hevs & _).
    { intros k Hin Hkind. apply andb_true_iff.
      apply Hok; [|exact Hkind]. rewrite <- (assoc_keys props Hnd).
      exact (in_map (fun k' => assoc k' props) _ _ Hin). }
    congruence.
Qed.

(** X16. The Eventbrite endpoint answers "Missing EVENTBRITE_TOKEN env var"
    exactly when the variable is unset or set to the empty string: an
    empty token counts as no token. *)
Theorem eventbrite_token_empty_as_unset (process_env : string -> option string)
    (req : request) (world : call -> result value) :
  answer (run world (api_eventbrite (startup process_env) req)) =
    Some {| status := 500;
            json := Error "Missing EVENTBRITE_TOKEN env var" None |} <->
  process_env "EVENTBRITE_TOKEN" = None \/
  process_env "EVENTBRITE_TOKEN" = Some "".
Proof.
  unfold api_eventbrite, startup. cbn [EVENTBRITE_TOKEN].
  destruct (process_env "EVENTBRITE_TOKEN") as [[|ch tok]|];
    cbn [or truthy negb].
  - split; [now right | reflexivity].
  - split; [|intros [H|H]; discriminate].
    case_try; cbn [run answer]; [|discriminate].
    case_try; discriminate.
  - split; [now left | reflexivity].
Qed.

(** X17. The calendar-feed endpoint answers 400 exactly when [calendarId]
    is missing or falsy (the empty string of [?calendarId=] included), the
    calendar-document endpoint exactly when [url] is, and the Eventbrite
    endpoint never answers 400. *)
Theorem status_400_iff_parameter_missing (cfg : config) (req : request)
    (world : call -> result value) :
  (option_map status (answer (run world (api_google_calendar cfg req)))
   = Some 400 <->
   truthy (assoc "calendarId" (query req)) = false) /\
  (option_map status (answer (run world (api_fetch_ics req))) = Some 400 <->
   truthy (assoc "url" (query req)) = false) /\
  option_map status (answer (run world (api_eventbrite cfg req))) <> Some 400.
Proof.
  repeat split.
  - unfold api_google_calendar.
    destruct (truthy (assoc "calendarId" (query req))); cbn [negb];
      [|reflexivity].
    destruct (truthy (VStr (GOOGLE_API_KEY cfg))); cbn [negb];
      [|discriminate].
    case_try; cbn [run answer]; [|discriminate].
    case_try; discriminate.
  - unfold api_google_calendar. now intros ->.
  - unfold api_fetch_ics.
    destruct (truthy (assoc "url" (query req))); cbn [negb run answer];
      [|reflexivity].
    case_try; discriminate.
  - unfold api_fetch_ics. now intros ->.
  - unfold api_eventbrite.
    destruct (truthy (VStr (EVENTBRITE_TOKEN cfg))); cbn [negb];
      [|discriminate].
    case_try; cbn [run answer]; [|discriminate].
    case_try; discriminate.
Qed.

(** X18. The one call the calendar-feed endpoint makes carries no header,
    and its URL is the fixed base, then the percent-encoding of the text of
    the caller's [calendarId] (of the string itself when it is a string),
    then [/events?key=], the key and the two fixed parameters.  The
    encoded segment holds no character that could end or split it. *)
Theorem google_calendar_url_segment (cfg : config) (req : request)
    (world : call -> result value) (c : call) :
  outbound (run world (api_google_calendar cfg req)) = [c] ->
  exists id_text,
    to_string (assoc "calendarId" (query req)) = Ok id_text /\
    (forall s, assoc "calendarId" (query req) = VStr s -> id_text = s) /\
    c = fetch ("https://www.googleapis.com/calendar/v3/calendars/"
               ++ encodeURIComponent id_text
               ++ "/events?key=" ++ GOOGLE_API_KEY cfg
               ++ "&singleEvents=true&orderBy=startTime") [] /\
    all_chars uri_safe (encodeURIComponent id_text) = true.
Proof.
  intros Hout. apply (run_api_google_calendar _ _ world) in Hout.
  destruct Hout as (_ & _ & id_text & Hid & -> & _).
  exists id_text. split; [exact Hid|]. split.
  - intros s Hs. rewrite Hs in Hid. cbn [to_string] in Hid. congruence.
  - split; [reflexivity | apply encodeURIComponent_safe].
Qed.

(** X19. The one call the Eventbrite endpoint makes is made only with a
    non-empty token; it goes to the search of the fixed host with the
    token as bearer credential; its URL carries the percent-encoding of
    the text of the caller's [q] (of the empty string when [q] is missing
    or falsy), and then the text of [page] as the caller sent it, not
    encoded (the text of the number 1 when [page] is missing or falsy). *)
Theorem eventbrite_outbound_call (cfg : config) (req : request)
    (world : call -> result value) (c : call) :
  outbound (run world (api_eventbrite cfg req)) = [c] ->
  exists q_text page_text,
    to_string (or (assoc "q" (query req)) (VStr "")) = Ok q_text /\
    to_string (or (assoc "page" (query req)) one) = Ok page_text /\
    c = fetch ("https://www.eventbriteapi.com/v3/events/search/?q="
               ++ encodeURIComponent q_text
               ++ "&expand=venue,organizer&page=" ++ page_text)
              [("Authorization", "Bearer " ++ EVENTBRITE_TOKEN cfg)] /\
    all_chars uri_safe (encodeURIComponent q_text) = true /\
    (forall s, assoc "q" (query req) = VStr s -> q_text = s) /\
    (truthy (assoc "q" (query req)) = false -> q_text = "") /\
    (forall s, assoc "page" (query req) = VStr s -> s <> "" ->
               page_text = s) /\
    EVENTBRITE_TOKEN cfg <> "".
Proof.
  intros Hout. apply (run_api_eventbrite _ _ world) in Hout.
  destruct Hout as (Htok & q_text & page_text & Hq & Hp & -> & _).
  exists q_text, page_text. split; [exact Hq|]. split; [exact Hp|].
  split; [reflexivity|]. split; [apply encodeURIComponent_safe|].
  split; [|split; [|split; [|exact Htok]]].
  - intros s Hs. rewrite Hs in Hq. destruct s; cbn in Hq; congruence.
  - intros Hf. rewrite (or_falsy _ _ Hf) in Hq. cbn in Hq. congruence.
  - intros s Hs Hne. rewrite Hs in Hp. apply truthy_str in Hne.
    rewrite (or_truthy _ _ Hne) in Hp. cbn in Hp. congruence.
Qed.

End MoreEndpoints.

(* ===================================================================== *)
(** ** The further properties at concrete records *)
(* ===================================================================== *)

Lemma verified_iff_org_type_witness :
  exists e, normalizeEvent company_record = Ok e /\
            verified (organizer e) = true.
Proof.
  eexists. split; [reflexivity|].
  apply (proj2 (verified_iff_org_type company_record _ eq_refl)).
  right. reflexivity.
Defined.

Lemma normalized_fields_never_missing_witness :
  exists e, normalizeEvent foo_record = Ok e /\
            (truthy (title e) = true \/ title e = VStr "") /\
            truthy (org_name (organizer e)) = true.
Proof.
  eexists. split; [reflexivity|].
  destruct (normalized_fields_never_missing foo_record _ eq_refl)
    as (Ht & _ & _ & _ & _ & Hn & _).
  split; [exact Ht | exact Hn].
Defined.

Lemma eventbrite_event_attributes_witness :
  exists e, @eventbrite_event sample_engine eventbrite_fest = Ok e /\
            verified (organizer e) = true /\
            org_name (organizer e) = VStr "Eventbrite" /\
            venue e = VStr "Main hall".
Proof.
  eexists. split; [reflexivity|].
  destruct (@eventbrite_event_attributes sample_engine eventbrite_fest _
              eq_refl) as (_ & Hv & _ & _ & Hn & _ & _ & Hvenue).
  split; [exact Hv|]. split; [exact Hn | exact Hvenue].
Defined.

Lemma gcal_start_end_preference_witness :
  exists e, @gcal_event sample_engine gcal_item = Ok e /\
            truthy (get (get gcal_item "start") "dateTime") = true /\
            start e = VStr "2024-05-01T10:00:00+05:30".
Proof.
  eexists. split; [reflexivity|]. split; [reflexivity|].
  destruct (@gcal_start_end_preference sample_engine gcal_item _ eq_refl)
    as (_ & _ & Hdt & _).
  apply Hdt. reflexivity.
Defined.

Lemma gcal_event_attributes_witness :
  exists e, @gcal_event sample_engine gcal_item = Ok e /\
            org_name (organizer e) = VStr "office@college.example" /\
            verified (organizer e) = false.
Proof.
  eexists. split; [reflexivity|].
  destruct (@gcal_event_attributes sample_engine gcal_item _ eq_refl)
    as (Hn & _ & Hv & _).
  split; [exact Hn | exact Hv].
Defined.

Lemma ics_event_attributes_witness :
  exists e, @ics_event sample_engine ics_open_day = Ok e /\
            start e = VStr (@date_toISOString sample_engine 1714559400000%Z) /\
            end_ e = VStr "" /\
            org_name (organizer e) = VStr "ICS".
Proof.
  eexists. split; [reflexivity|].
  destruct (@ics_event_attributes sample_engine ics_open_day _ eq_refl)
    as (Hs & _ & _ & He & Hn & _).
  split; [apply Hs; reflexivity|]. split; [apply He; reflexivity | exact Hn].
Defined.

Lemma ics_id_length_witness :
  exists e, @ics_event sample_engine ics_long_uid = Ok e /\
            exists s, id e = VStr s /\ 4 <= String.length s <= 44.
Proof.
  eexists. split; [reflexivity|].
  exact (@ics_id_length sample_engine ics_long_uid _ eq_refl).
Defined.

Lemma upstream_failure_500_witness :
  outbound (run no_upstream
              (@handle sample_engine FetchIcs (startup no_env) ics_request))
    = [ics_call] /\
  no_upstream ics_call = Throw (Rejection (VStr "network unreachable")) /\
  answer (run no_upstream
            (@handle sample_engine FetchIcs (startup no_env) ics_request)) =
    Some {| status := 500;
            json := Error "Failed to fetch/parse ICS"
                      (Some (VStr "network unreachable")) |}.
Proof.
  split; [reflexivity|]. split; [reflexivity|].
  exact (proj1 (@upstream_failure_500 sample_engine FetchIcs (startup no_env)
                  ics_request no_upstream ics_call _ eq_refl eq_refl)).
Defined.

Lemma eventbrite_one_event_per_record_witness :
  outbound (run (fun _ => Ok eventbrite_body)
              (@api_eventbrite sample_engine (startup token_env)
                 eventbrite_request)) = [eventbrite_call] /\
  nullish eventbrite_body = false /\
  option_map status
    (answer (run (fun _ => Ok eventbrite_body)
               (@api_eventbrite sample_engine (startup token_env)
                  eventbrite_request))) = Some 200.
Proof.
  split; [reflexivity|]. split; [reflexivity|].
  destruct (@eventbrite_one_event_per_record sample_engine
              (startup token_env) eventbrite_request
              (fun _ => Ok eventbrite_body) eventbrite_call
              eventbrite_body eq_refl eq_refl eq_refl) as (_ & H200 & _).
  apply H200. eexists. split; [reflexivity|].
  repeat constructor.
Defined.

Lemma google_calendar_one_event_per_item_witness :
  outbound (run (fun _ => Ok gcal_body)
              (@api_google_calendar sample_engine (startup token_env)
                 gcal_request)) = [gcal_call] /\
  nullish gcal_body = false /\
  option_map status
    (answer (run (fun _ => Ok gcal_body)
               (@api_google_calendar sample_engine (startup token_env)
                  gcal_request))) = Some 200.
Proof.
  split; [reflexivity|]. split; [reflexivity|].
  destruct (@google_calendar_one_event_per_item sample_engine
              (startup token_env) gcal_request
              (fun _ => Ok gcal_body) gcal_call gcal_body
              eq_refl eq_refl eq_refl) as (_ & H200 & _).
  apply H200. eexists. split; [reflexivity|].
  repeat constructor.
Defined.

Lemma fetch_ics_200_iff_mappable_witness :
  outbound (run (fun _ => Ok (VObj timezone_and_unparsed_start))
              (@api_fetch_ics sample_engine ics_request)) = [ics_call] /\
  NoDup (map fst timezone_and_unparsed_start) /\
  option_map status
    (answer (run (fun _ => Ok (VObj timezone_and_unparsed_start))
               (@api_fetch_ics sample_engine ics_request))) <> Some 200.
Proof.
  assert (Hnd : NoDup (map fst timezone_and_unparsed_start)).
  { repeat constructor; simpl; intuition discriminate. }
  split; [reflexivity|]. split; [exact Hnd|].
  intros H200.
  pose proof (proj1 (proj1 (@fetch_ics_200_iff_mappable sample_engine
                  ics_request
                  (fun _ => Ok (VObj timezone_and_unparsed_start)) ics_call
                  timezone_and_unparsed_start eq_refl eq_refl Hnd)) H200)
    as Hall.
  specialize (Hall _ (or_intror (or_introl eq_refl)) eq_refl).
  destruct Hall as [Hdates _]. discriminate Hdates.
Defined.

Lemma google_calendar_url_segment_witness :
  outbound (run no_upstream
              (@api_google_calendar sample_engine (startup token_env)
                 gcal_request)) = [gcal_call] /\
  exists id_text,
    id_text = "college@group.calendar.google.com" /\
    gcal_call =
      fetch ("https://www.googleapis.com/calendar/v3/calendars/"
             ++ encodeURIComponent id_text ++ "/events?key="
             ++ GOOGLE_API_KEY (startup token_env)
             ++ "&singleEvents=true&orderBy=startTime") [] /\
    all_chars uri_safe (encodeURIComponent id_text) = true.
Proof.
  split; [reflexivity|].
  destruct (@google_calendar_url_segment sample_engine (startup token_env)
              gcal_request no_upstream gcal_call eq_refl)
    as (id_text & _ & Hstr & Hcall & Hsafe).
  exists id_text. split; [exact (Hstr _ eq_refl)|].
  split; [exact Hcall | exact Hsafe].
Defined.

Lemma eventbrite_outbound_call_witness :
  outbound (run no_upstream
              (@api_eventbrite sample_engine (startup token_env)
                 eventbrite_request)) = [eventbrite_call] /\
  exists q_text,
    q_text = "tech fest" /\
    all_chars uri_safe (encodeURIComponent q_text) = true /\
    EVENTBRITE_TOKEN (startup token_env) <> "".
Proof.
  split; [reflexivity|].
  destruct (@eventbrite_outbound_call sample_engine (startup token_env)
              eventbrite_request no_upstream eventbrite_call eq_refl)
    as (q_text & page_text & _ & _ & _ & Hsafe & Hq & _ & _ & Htok).
  exists q_text. split; [exact (Hq _ eq_refl)|].
  split; [exact Hsafe | exact Htok].
Defined.
